(** * The AST environment: state schema, padding and the reset/step protocol

    A shallow embedding of [src/envs/ast_env.py].  The environment keeps the
    engine's raw state in a [ctypes.Structure] and hands the learner a
    dictionary of numpy arrays made with [np.ctypeslib.as_array]: these arrays
    are views, they share the memory of the structure.  The embedding keeps
    that sharing explicit: an array is a window on a buffer of the structure,
    and reading or writing an array goes through the structure.

    Two callers are embedded as well: the episode loop of [src/test.py] and
    [GNNPolicy.unflatten_input] of [src/agent/policy.py]. *)

From Stdlib Require Import ZArith String QArith.
From stdpp Require Import base list.

Open Scope string_scope.
Open Scope Z_scope.

(** ** Exceptions and results *)

Inductive exn :=
  | IndexError | ValueError | TypeError | AttributeError | AssertionError.

Inductive result (A : Type) :=
  | Ok (a : A)
  | Raise (e : exn).
Arguments Ok {A} a.
Arguments Raise {A} e.

Definition rbind {A B} (r : result A) (k : A → result B) : result B :=
  match r with
  | Ok a => k a
  | Raise e => Raise e
  end.

(** [ctypes.c_int(x)] keeps the low 32 bits of a Python integer, read as a
    signed number. *)
Definition c_int (x : Z) : Z := (x + 2 ^ 31) mod 2 ^ 32 - 2 ^ 31.

(** ** The raw state: [class State(ctypes.Structure)]

    One buffer of integers per array field, in the order of [State._fields_]
    (lines 32-49).  A two-dimensional field such as
    [(c_int * (max_num_nodes * 3)) * 3] is its flat, row-major memory. *)

Module State.
Record t := mk {
  edges : list Z;
  tests : list Z;
  nodes : list Z;
  starter : list Z;
  permitted_actions : list Z;
  vars_in_scope : list Z;
  args_in_scope : list Z;
  zast : list Z;
  cursor : Z;
  num_nodes : Z;
  num_edges : Z;
  num_tests : Z;
  num_vars : Z;
  num_args : Z;
  assignment : Z;
  code : Z;
}.
End State.

(** The integer array fields, as names of buffers. *)
Inductive field :=
  | Edges | Tests | Nodes | Starter | PermittedActions | VarsInScope
  | ArgsInScope.

#[global] Instance field_eq_dec : EqDecision field.
Proof. solve_decision. Defined.

Definition buf (st : State.t) (f : field) : list Z :=
  match f with
  | Edges => State.edges st
  | Tests => State.tests st
  | Nodes => State.nodes st
  | Starter => State.starter st
  | PermittedActions => State.permitted_actions st
  | VarsInScope => State.vars_in_scope st
  | ArgsInScope => State.args_in_scope st
  end.

(** Replace the content of one buffer; every other field is kept. *)
Definition set_buf (st : State.t) (f : field) (l : list Z) : State.t :=
  let get g := if decide (f = g) then l else buf st g in
  State.mk (get Edges) (get Tests) (get Nodes) (get Starter)
    (get PermittedActions) (get VarsInScope) (get ArgsInScope)
    (State.zast st) (State.cursor st) (State.num_nodes st)
    (State.num_edges st) (State.num_tests st) (State.num_vars st)
    (State.num_args st) (State.assignment st) (State.code st).

(** The sizes that [State._fields_] fixes for the buffers. *)
Record Layout := {
  size_of : field → nat;
  zast_size : nat;
}.

Definition has_layout (L : Layout) (st : State.t) : Prop :=
  (∀ f, length (buf st f) = size_of L f) ∧
  length (State.zast st) = zast_size L.

(** [State()]: ctypes zero-fills a new structure. *)
Definition State_new (L : Layout) : State.t :=
  let z f := replicate (size_of L f) 0 in
  State.mk (z Edges) (z Tests) (z Nodes) (z Starter) (z PermittedActions)
    (z VarsInScope) (z ArgsInScope) (replicate (zast_size L) 0)
    0 0 0 0 0 0 0 0.

(** ** Computations over the structure's memory *)

Definition Eff (A : Type) : Type := State.t → result (A * State.t).

Definition ret {A} (a : A) : Eff A := λ st, Ok (a, st).

Definition bind {A B} (c : Eff A) (k : A → Eff B) : Eff B :=
  λ st, match c st with
        | Ok (a, st') => k a st'
        | Raise e => Raise e
        end.

Definition gets {A} (f : State.t → A) : Eff A := λ st, Ok (f st, st).

Definition lift {A} (r : result A) : Eff A :=
  λ st, match r with Ok a => Ok (a, st) | Raise e => Raise e end.

Notation "x <- c ;; k" := (bind c (λ x, k))
  (at level 100, c at next level, right associativity).
Notation "c ;;; k" := (bind c (λ _, k))
  (at level 100, right associativity).

(** [for i in r: body(i)] *)
Fixpoint for_ (r : list Z) (body : Z → Eff unit) : Eff unit :=
  match r with
  | [] => ret tt
  | i :: r' => body i ;;; for_ r' body
  end.

(** [range(lo, hi)] *)
Definition range (lo hi : Z) : list Z := seqZ lo (hi - lo).

(** ** numpy arrays as views

    [len] is the length of the first axis and [width] the length of a row.
    A one-dimensional array is a view of width 1, and [x[i]] on it is the
    item [(i, 0)]. *)

Record ndarray := {
  base : field;
  len : nat;
  width : nat;
}.

(** An index of Python: a negative one counts from the end. *)
Definition norm_index (n : nat) (i : Z) : option nat :=
  if bool_decide (0 ≤ i < Z.of_nat n) then Some (Z.to_nat i)
  else if bool_decide (- Z.of_nat n ≤ i < 0) then Some (Z.to_nat (i + Z.of_nat n))
  else None.

Definition offset (a : ndarray) (i j : Z) : option nat :=
  match norm_index (len a) i, norm_index (width a) j with
  | Some k, Some c => Some (width a * k + c)%nat
  | _, _ => None
  end.

(** [np.ctypeslib.as_array(self.state.f)]: no copy is made.  Only the flat
    size of the field matters to the [reshape(-1, w)] that follows a
    two-dimensional field, so the view starts flat. *)
Definition as_array (f : field) : Eff ndarray :=
  λ st, Ok ({| base := f; len := length (buf st f); width := 1 |}, st).

(** [a.reshape(-1, w)], again a view. *)
Definition reshape (a : ndarray) (w : nat) : result ndarray :=
  if bool_decide (w ≠ 0%nat ∧ ((len a * width a) mod w = 0)%nat)
  then Ok {| base := base a; len := (len a * width a) / w; width := w |}
  else Raise ValueError.

(** [a[i][j]] (and [a[i]] for [j = 0] on a one-dimensional array): what is
    read, and the read as a computation. *)
Definition item (st : State.t) (a : ndarray) (i j : Z) : option Z :=
  match offset a i j with
  | Some p => buf st (base a) !! p
  | None => None
  end.

Definition getitem (a : ndarray) (i j : Z) : Eff Z :=
  λ st, match item st a i j with
        | Some v => Ok (v, st)
        | None => Raise IndexError
        end.

(** [a[i][j] = v]: the write lands in the structure. *)
Definition setitem (a : ndarray) (i j : Z) (v : Z) : Eff unit :=
  λ st, match offset a i j with
        | Some p =>
            if bool_decide (p < length (buf st (base a)))%nat
            then Ok (tt, set_buf st (base a) (<[p := v]> (buf st (base a))))
            else Raise IndexError
        | None => Raise IndexError
        end.

(** [a[:i]], a shorter view of the same memory. *)
Definition slice_to (a : ndarray) (i : Z) : ndarray :=
  let n := Z.of_nat (len a) in
  let stop := if bool_decide (i < 0) then Z.max 0 (n + i) else Z.min i n in
  {| base := base a; len := Z.to_nat stop; width := width a |}.

(** What a view shows in a given memory: its rows, and for a
    one-dimensional array its items.  [rows w k l] are the first [k] rows of
    width [w] of the flat memory [l]. *)
Definition rows (w k : nat) (l : list Z) : list (list Z) :=
  (λ r, take w (drop (w * r) l)) <$> seq 0 k.

Definition to_rows (st : State.t) (a : ndarray) : list (list Z) :=
  rows (width a) (len a) (buf st (base a)).

Definition to_list (st : State.t) (a : ndarray) : list Z :=
  take (len a) (buf st (base a)).

(** ** The observation dictionary of [get_state] *)

Module Obs.
Record t := mk {
  nodes : ndarray;
  edges : ndarray;
  starter : ndarray;
  permitted_actions : ndarray;
  cursor_position : Z;
  vars_in_scope : ndarray;
  args_in_scope : ndarray;
  assignment : Z;
}.
End Obs.

Definition set_nodes (state : Obs.t) (a : ndarray) : Obs.t :=
  Obs.mk a (Obs.edges state) (Obs.starter state)
    (Obs.permitted_actions state) (Obs.cursor_position state)
    (Obs.vars_in_scope state) (Obs.args_in_scope state) (Obs.assignment state).

Definition set_starter (state : Obs.t) (a : ndarray) : Obs.t :=
  Obs.mk (Obs.nodes state) (Obs.edges state) a
    (Obs.permitted_actions state) (Obs.cursor_position state)
    (Obs.vars_in_scope state) (Obs.args_in_scope state) (Obs.assignment state).

Definition set_edges (state : Obs.t) (a : ndarray) : Obs.t :=
  Obs.mk (Obs.nodes state) a (Obs.starter state)
    (Obs.permitted_actions state) (Obs.cursor_position state)
    (Obs.vars_in_scope state) (Obs.args_in_scope state) (Obs.assignment state).

Definition set_vars_in_scope (state : Obs.t) (a : ndarray) : Obs.t :=
  Obs.mk (Obs.nodes state) (Obs.edges state) (Obs.starter state)
    (Obs.permitted_actions state) (Obs.cursor_position state)
    a (Obs.args_in_scope state) (Obs.assignment state).

Definition set_args_in_scope (state : Obs.t) (a : ndarray) : Obs.t :=
  Obs.mk (Obs.nodes state) (Obs.edges state) (Obs.starter state)
    (Obs.permitted_actions state) (Obs.cursor_position state)
    (Obs.vars_in_scope state) a (Obs.assignment state).

(** ** gym spaces

    Only what [__init__] builds.  [MultiDiscrete] receives [c * np.ones(shape)]
    and is kept as the constant and the shape. *)

Record Discrete := { n : Z }.
Record MultiDiscrete := { nvec : Z; nvec_shape : list Z }.
Record MultiBinary := { bits : Z }.

Module ObservationSpace.
Record t := mk {
  nodes : MultiDiscrete;
  edges : MultiDiscrete;
  permitted_actions : MultiBinary;
  starter : MultiDiscrete;
  cursor_position : Discrete;
  vars_in_scope : MultiDiscrete;
  args_in_scope : MultiDiscrete;
  assignment : Discrete;
}.
End ObservationSpace.

(** The constructors check their sizes.  Which sizes gym refuses has changed
    between releases ([n >= 0] in early ones, [n > 0] later); the model takes
    the later, stricter assertions.  [np.ones] refuses a negative dimension,
    and an array without entries satisfies [(nvec > 0).all()]. *)
Definition np_ones (shape : list Z) : result (list Z) :=
  if bool_decide (Forall (λ d, 0 ≤ d) shape) then Ok shape
  else Raise ValueError.

Definition new_Discrete (k : Z) : result Discrete :=
  if bool_decide (0 < k) then Ok {| n := k |} else Raise AssertionError.

Definition new_MultiDiscrete (c : Z) (shape : list Z) : result MultiDiscrete :=
  if bool_decide (0 < c ∨ Exists (λ d, d = 0) shape)
  then Ok {| nvec := c; nvec_shape := shape |}
  else Raise AssertionError.

Definition new_MultiBinary (k : Z) : result MultiBinary :=
  if bool_decide (0 < k) then Ok {| bits := k |} else Raise AssertionError.

(** [ctypes.c_int * k], and [t * k] for an array type [t] of [elems]
    integers: the number of integers of the new type.  ctypes refuses a
    negative length and accepts zero. *)
Definition c_array (elems : nat) (k : Z) : result nat :=
  if bool_decide (k < 0) then Raise ValueError
  else Ok (elems * Z.to_nat k)%nat.

(** ** Randomness

    [Draw lo hi k] draws an integer uniformly from [lo .. hi] (both
    included) and goes on with it; this is the contract of
    [random.randint(lo, hi)] and, with [lo = 0] and [hi = n - 1], of
    [Discrete(n).sample()]. *)

Inductive Rand (A : Type) :=
  | Done (a : A)
  | Draw (lo hi : Z) (k : Z → Rand A).
Arguments Done {A} a.
Arguments Draw {A} lo hi k.

(** An empty range is refused with [ValueError]. *)
Definition randint {A} (lo hi : Z) (k : Z → Rand (result A)) : Rand (result A) :=
  if bool_decide (hi < lo) then Done (Raise ValueError) else Draw lo hi k.

Definition sample {A} (d : Discrete) (k : Z → Rand (result A)) : Rand (result A) :=
  randint 0 (n d - 1) k.

(** The result of a run in which the draws came out as [ds], and the
    probability of exactly these draws. *)
Fixpoint run {A} (m : Rand A) (ds : list Z) : option A :=
  match m, ds with
  | Done a, [] => Some a
  | Draw lo hi k, d :: ds' =>
      if bool_decide (lo ≤ d ≤ hi) then run (k d) ds' else None
  | _, _ => None
  end.

Fixpoint prob {A} (m : Rand A) (ds : list Z) : Q :=
  match m, ds with
  | Done _, [] => 1%Q
  | Draw lo hi k, d :: ds' =>
      if bool_decide (lo ≤ d ≤ hi)
      then (1 # Z.to_pos (hi - lo + 1)) * prob (k d) ds'
      else 0
  | _, _ => 0
  end%Q.

(** ** The engine binding and the environment *)

Section Environment.

(** [E] is whatever the native library keeps between calls (its random
    state, the loaded assignments).  A call receives the structure by
    reference and may change it. *)
Context {E : Type}.

Record CDLL := {
  init_c : Z → E → E;
  take_action : State.t → Z → E → State.t * E;
  check_ast : State.t → E → Z * State.t * E;
  init_assignment : State.t → string → Z → Z → Z → E → State.t * E;
}.

(** The attributes that [__init__] sets.  [engine] is the state of the
    loaded library.  [State_fields] is the class attribute [State._fields_]:
    it belongs to the process, is set by [__init__] and is final once set, so
    the one environment that set it carries it here. *)
Record ASTEnv := {
  num_node_descriptor : Z;
  max_num_nodes : Z;
  num_actions : Z;
  max_num_vars : Z;
  perturbation : Z;
  action_space : Discrete;
  observation_space : ObservationSpace.t;
  astclib : CDLL;
  engine : E;
  state : option State.t;
  code_per_assignment : list Z;
  assignment_dir : string;
  State_fields : Layout;
}.

(** [self.state] after a call: the structure and the library's own state. *)
Definition with_state (self : ASTEnv) (st : option State.t) (e : E) : ASTEnv :=
  {| num_node_descriptor := num_node_descriptor self;
     max_num_nodes := max_num_nodes self;
     num_actions := num_actions self;
     max_num_vars := max_num_vars self;
     perturbation := perturbation self;
     action_space := action_space self;
     observation_space := observation_space self;
     astclib := astclib self;
     engine := e;
     state := st;
     code_per_assignment := code_per_assignment self;
     assignment_dir := assignment_dir self;
     State_fields := State_fields self |}.

(** *** [pad_states] (lines 142-156) *)
Definition pad_states (self : ASTEnv) (state : Obs.t) : Eff Obs.t :=
  num_nodes <- gets State.num_nodes ;;
  for_ (range num_nodes (max_num_nodes self)) (λ i,
    setitem (Obs.nodes state) i 0 (-1) ;;;
    setitem (Obs.starter state) i 0 (-1)) ;;;
  num_edges <- gets State.num_edges ;;
  for_ (range num_edges (max_num_nodes self * 3)) (λ i,
    setitem (Obs.edges state) i 0 (-1)) ;;;
  num_vars <- gets State.num_vars ;;
  for_ (range num_vars (max_num_vars self)) (λ i,
    setitem (Obs.vars_in_scope state) i 0 (-1)) ;;;
  num_args <- gets State.num_args ;;
  for_ (range num_args (max_num_vars self)) (λ i,
    setitem (Obs.args_in_scope state) i 0 (-1)) ;;;
  ret state.

(** [for i in r: if a[i][0] == -1: ...; break]: the index at which the loop
    breaks, if it does. *)
Fixpoint find_sentinel (a : ndarray) (r : list Z) : Eff (option Z) :=
  match r with
  | [] => ret None
  | i :: r' =>
      v <- getitem a i 0 ;;
      if bool_decide (v = -1) then ret (Some i) else find_sentinel a r'
  end.

(** *** [unpad_states] (lines 158-180) *)
Definition unpad_states (self : ASTEnv) (state : Obs.t) : Eff Obs.t :=
  found <- find_sentinel (Obs.nodes state) (range 0 (max_num_nodes self)) ;;
  let state :=
    match found with
    | Some i =>
        let state := set_nodes state (slice_to (Obs.nodes state) i) in
        set_starter state (slice_to (Obs.starter state) i)
    | None => state
    end in
  found <- find_sentinel (Obs.edges state) (range 0 (max_num_nodes self * 3)) ;;
  let state :=
    match found with
    | Some i => set_edges state (slice_to (Obs.edges state) i)
    | None => state
    end in
  found <- find_sentinel (Obs.vars_in_scope state) (range 0 (max_num_vars self)) ;;
  let state :=
    match found with
    | Some i => set_vars_in_scope state (slice_to (Obs.vars_in_scope state) i)
    | None => state
    end in
  found <- find_sentinel (Obs.args_in_scope state) (range 0 (max_num_vars self)) ;;
  let state :=
    match found with
    | Some i => set_args_in_scope state (slice_to (Obs.args_in_scope state) i)
    | None => state
    end in
  ret state.

(** The dictionary that [get_state] builds (lines 127-138). *)
Definition state_dict : Eff Obs.t :=
  nodes <- as_array Nodes ;;
  edges <- as_array Edges ;;
  edges <- lift (reshape edges 3) ;;
  starter <- as_array Starter ;;
  permitted_actions <- as_array PermittedActions ;;
  cursor_position <- gets State.cursor ;;
  vars_in_scope <- as_array VarsInScope ;;
  args_in_scope <- as_array ArgsInScope ;;
  args_in_scope <- lift (reshape args_in_scope 2) ;;
  assignment <- gets State.assignment ;;
  ret (Obs.mk nodes edges starter permitted_actions cursor_position
         vars_in_scope args_in_scope assignment).

(** *** [get_state] (lines 126-140) *)
Definition get_state (self : ASTEnv) : Eff Obs.t :=
  state <- state_dict ;;
  pad_states self state.

(** *** [step] (lines 90-101)

    [ctypes.byref(None)] is a [TypeError]: there is no structure before the
    first [reset].  The last component is [info], a dictionary. *)
Definition step (self : ASTEnv) (action : Z)
  : result (Obs.t * Z * bool * list (string * Z) * ASTEnv) :=
  match state self with
  | None => Raise TypeError
  | Some st =>
      let '(st, e) := take_action (astclib self) st (c_int action) (engine self) in
      let '(reward, st, e) := check_ast (astclib self) st e in
      let done := bool_decide (reward = 1) in
      match get_state self st with
      | Ok (state, st) => Ok (state, reward, done, [], with_state self (Some st) e)
      | Raise x => Raise x
      end
  end.

(** *** [reset] (lines 103-116) *)

(** Lines 107-116, once [assignment] and [code] are drawn. *)
Definition reset_load (self : ASTEnv) (assignment code : Z)
  : result (Obs.t * ASTEnv) :=
  let st := State_new (State_fields self) in
  let '(st, e) :=
    init_assignment (astclib self) st (assignment_dir self)
      (c_int assignment) (c_int code) (c_int (perturbation self))
      (engine self) in
  match get_state self st with
  | Ok (state, st) => Ok (state, with_state self (Some st) e)
  | Raise x => Raise x
  end.

Definition reset (self : ASTEnv) : Rand (result (Obs.t * ASTEnv)) :=
  sample (ObservationSpace.assignment (observation_space self)) (λ assignment,
    match norm_index (length (code_per_assignment self)) assignment with
    | None => Done (Raise IndexError)
    | Some k =>
        match code_per_assignment self !! k with
        | None => Done (Raise IndexError)
        | Some codes =>
            randint 0 (codes - 1) (λ code,
              Done (reset_load self assignment code))
        end
    end).

(** *** [__init__] (lines 16-88)

    [lib] and [e] are the library that [ctypes.CDLL] loads and its state;
    [fields_final] tells whether [State._fields_] was already set in this
    process, which ctypes allows once. *)
Definition __init__ (lib : CDLL) (e : E) (fields_final : bool)
    (max_num_nodes num_node_descriptor num_assignments : Z)
    (code_per_assignment : list Z) (num_actions : Z) (assignment_dir : string)
    (perturbation max_num_tests max_tree_length max_num_vars seed : Z)
  : result ASTEnv :=
  rbind (rbind (c_array 1 (max_num_nodes * 3)) (λ t, c_array t 3)) (λ t_edges,
  rbind (rbind (c_array 1 max_num_tests) (λ t, c_array t 2)) (λ t_tests,
  rbind (c_array 1 max_num_nodes) (λ t_nodes,
  rbind (c_array 1 max_num_nodes) (λ t_starter,
  rbind (c_array 1 (num_actions + max_num_vars * 2)) (λ t_permitted,
  rbind (c_array 1 max_num_vars) (λ t_vars,
  rbind (rbind (c_array 1 max_num_vars) (λ t, c_array t 2)) (λ t_args,
  rbind (c_array 1 max_tree_length) (λ t_zast,
  if fields_final then Raise AttributeError else
  let fields :=
    {| size_of := λ f, match f with
                       | Edges => t_edges
                       | Tests => t_tests
                       | Nodes => t_nodes
                       | Starter => t_starter
                       | PermittedActions => t_permitted
                       | VarsInScope => t_vars
                       | ArgsInScope => t_args
                       end;
       zast_size := t_zast |} in
  rbind (np_ones [max_num_nodes]) (λ node_shape,
  rbind (np_ones [max_num_nodes * 3; 3]) (λ edge_shape,
  rbind (np_ones [max_num_vars]) (λ vars_shape,
  rbind (np_ones [max_num_vars; 2]) (λ args_shape,
  let node_nvec := num_node_descriptor + max_num_vars + 1 in
  let edge_nvec := max_num_nodes + 1 in
  let vars_nvec := max_num_nodes + 1 in
  let args_nvec := max_num_nodes + 1 in
  rbind (new_Discrete (num_actions + max_num_vars)) (λ action_space,
  rbind (new_MultiDiscrete node_nvec node_shape) (λ s_nodes,
  rbind (new_MultiDiscrete edge_nvec edge_shape) (λ s_edges,
  rbind (new_MultiBinary (num_actions + max_num_vars * 2)) (λ s_permitted,
  rbind (new_MultiDiscrete node_nvec node_shape) (λ s_starter,
  rbind (new_Discrete max_num_nodes) (λ s_cursor,
  rbind (new_MultiDiscrete vars_nvec vars_shape) (λ s_vars,
  rbind (new_MultiDiscrete args_nvec args_shape) (λ s_args,
  rbind (new_Discrete num_assignments) (λ s_assignment,
  Ok {| num_node_descriptor := num_node_descriptor;
        max_num_nodes := max_num_nodes;
        num_actions := num_actions;
        max_num_vars := max_num_vars;
        perturbation := perturbation;
        action_space := action_space;
        observation_space :=
          ObservationSpace.mk s_nodes s_edges s_permitted s_starter s_cursor
            s_vars s_args s_assignment;
        astclib := lib;
        engine := init_c lib (c_int seed) e;
        state := None;
        code_per_assignment := code_per_assignment;
        assignment_dir := assignment_dir;
        State_fields := fields |}))))))))))))))))))))).

End Environment.

Arguments CDLL : clear implicits.
Arguments ASTEnv : clear implicits.

(** ** What padding leaves in a buffer

    [pad_buf w c cap l] is the flat memory [l] of rows of width [w] in which
    the first item of every row from [c] up to [cap] is the sentinel. *)
Definition pad_buf (w : nat) (c cap : Z) (l : list Z) : list Z :=
  imap (λ p v,
    if bool_decide ((p mod w)%nat = 0%nat ∧ c ≤ Z.of_nat (p / w) < cap)
    then -1 else v) l.

(** ** Well-formed structures, engines and episodes *)

Section Invariants.

Context {E : Type}.
Implicit Types (self : ASTEnv E) (st : State.t).

(** [State._fields_] was declared from the capacities of [self], as
    [__init__] does. *)
Definition schema self : Prop :=
  let L := State_fields self in
  size_of L Nodes = Z.to_nat (max_num_nodes self) ∧
  size_of L Starter = Z.to_nat (max_num_nodes self) ∧
  size_of L Edges = (Z.to_nat (max_num_nodes self * 3) * 3)%nat ∧
  size_of L PermittedActions =
    Z.to_nat (num_actions self + max_num_vars self * 2) ∧
  size_of L VarsInScope = Z.to_nat (max_num_vars self) ∧
  size_of L ArgsInScope = (Z.to_nat (max_num_vars self) * 2)%nat.

Definition counts_in_capacity self st : Prop :=
  0 ≤ State.num_nodes st ≤ max_num_nodes self ∧
  0 ≤ State.num_edges st ≤ 3 * max_num_nodes self ∧
  0 ≤ State.num_vars st ≤ max_num_vars self ∧
  0 ≤ State.num_args st ≤ max_num_vars self.

(** The live entries in marker positions: [nodes[i]], [edges[i][0]],
    [vars_in_scope[i]] and [args_in_scope[i][0]] below the counts. *)
Definition live_markers st : Prop :=
  (∀ (i : nat) v, Z.of_nat i < State.num_nodes st →
     State.nodes st !! i = Some v → 0 ≤ v) ∧
  (∀ (i : nat) v, Z.of_nat i < State.num_edges st →
     State.edges st !! (3 * i)%nat = Some v → 0 ≤ v) ∧
  (∀ (i : nat) v, Z.of_nat i < State.num_vars st →
     State.vars_in_scope st !! i = Some v → 0 ≤ v) ∧
  (∀ (i : nat) v, Z.of_nat i < State.num_args st →
     State.args_in_scope st !! (2 * i)%nat = Some v → 0 ≤ v).

(** Invariant I1 of the data model. *)
Definition I1 self st : Prop := counts_in_capacity self st ∧ live_markers st.

(** A structure of the declared layout whose counts fit. *)
Definition ready self st : Prop :=
  has_layout (State_fields self) st ∧ counts_in_capacity self st.

(** The native calls work on a structure of fixed layout and keep the counts
    of the data model. *)
Definition engine_ok self : Prop :=
  (∀ st a e, ready self st → ready self (take_action (astclib self) st a e).1) ∧
  (∀ st e, ready self st → ready self (check_ast (astclib self) st e).1.2) ∧
  (∀ st d a c p e, ready self st →
     ready self (init_assignment (astclib self) st d a c p e).1).

Definition keeps_layout (lib : CDLL E) (L : Layout) : Prop :=
  (∀ st a e, has_layout L st → has_layout L (take_action lib st a e).1) ∧
  (∀ st e, has_layout L st → has_layout L (check_ast lib st e).1.2) ∧
  (∀ st d a c p e, has_layout L st →
     has_layout L (init_assignment lib st d a c p e).1).

(** The views of [state_dict] on a structure. *)
Definition state_views st : Obs.t :=
  Obs.mk
    {| base := Nodes; len := length (State.nodes st); width := 1 |}
    {| base := Edges; len := (length (State.edges st) * 1) / 3; width := 3 |}
    {| base := Starter; len := length (State.starter st); width := 1 |}
    {| base := PermittedActions;
       len := length (State.permitted_actions st); width := 1 |}
    (State.cursor st)
    {| base := VarsInScope; len := length (State.vars_in_scope st); width := 1 |}
    {| base := ArgsInScope;
       len := (length (State.args_in_scope st) * 1) / 2; width := 2 |}
    (State.assignment st).

(** The structure once the four loops of [pad_states] have run. *)
Definition padded self st : State.t :=
  let N := max_num_nodes self in
  let V := max_num_vars self in
  let st1 :=
    set_buf st Nodes (pad_buf 1 (State.num_nodes st) N (State.nodes st)) in
  let st2 :=
    set_buf st1 Starter (pad_buf 1 (State.num_nodes st) N (State.starter st)) in
  let st3 :=
    set_buf st2 Edges (pad_buf 3 (State.num_edges st) (N * 3) (State.edges st)) in
  let st4 :=
    set_buf st3 VarsInScope
      (pad_buf 1 (State.num_vars st) V (State.vars_in_scope st)) in
  set_buf st4 ArgsInScope
    (pad_buf 2 (State.num_args st) V (State.args_in_scope st)).

(** Where a scan of [a] over [range(c, cap)] breaks: at the first sentinel
    [r], or nowhere. *)
Definition first_sentinel st (a : ndarray) (c cap : Z) (r : option Z) : Prop :=
  match r with
  | Some i =>
      c ≤ i < cap ∧ item st a i 0 = Some (-1) ∧
      ∀ k, c ≤ k < i → item st a k 0 ≠ Some (-1)
  | None => ∀ k, c ≤ k < cap → item st a k 0 ≠ Some (-1)
  end.

Definition no_sentinel st (a : ndarray) (cap : Z) : Prop :=
  ∀ k, 0 ≤ k < cap → item st a k 0 ≠ Some (-1).

Definition cut (r : option Z) (a : ndarray) : ndarray :=
  match r with
  | Some i => slice_to a i
  | None => a
  end.

(** The observations returned so far and the environment they leave, along
    any sequence of [reset] and [step] calls from [self0]. *)
Inductive reachable (self0 : ASTEnv E) : ASTEnv E → list Obs.t → Prop :=
  | reach_start : reachable self0 self0 []
  | reach_reset self obss ds state self' :
      reachable self0 self obss →
      run (reset self) ds = Some (Ok (state, self')) →
      reachable self0 self' (state :: obss)
  | reach_step self obss action state reward done info self' :
      reachable self0 self obss →
      step self action = Ok (state, reward, done, info, self') →
      reachable self0 self' (state :: obss).

End Invariants.

(** The assignments that [reset] can draw all have starting codes. *)
Definition well_configured {E} (self : ASTEnv E) : Prop :=
  0 < n (ObservationSpace.assignment (observation_space self)) ∧
  ∀ a, 0 ≤ a < n (ObservationSpace.assignment (observation_space self)) →
    ∃ codes, code_per_assignment self !! Z.to_nat a = Some codes ∧ 0 < codes.

(** What a computation on the structure keeps when it only writes items:
    the lengths, [zast] and every scalar. *)
Definition same_frame (st st' : State.t) : Prop :=
  (∀ f, length (buf st' f) = length (buf st f)) ∧
  State.zast st' = State.zast st ∧
  State.cursor st' = State.cursor st ∧
  State.num_nodes st' = State.num_nodes st ∧
  State.num_edges st' = State.num_edges st ∧
  State.num_tests st' = State.num_tests st ∧
  State.num_vars st' = State.num_vars st ∧
  State.num_args st' = State.num_args st ∧
  State.assignment st' = State.assignment st ∧
  State.code st' = State.code st.

(** ** A small engine to run the environment on

    It keeps no state of its own.  Loading an assignment gives a tree of two
    nodes and one edge, an action moves the cursor, and the tests pass when
    the cursor is on node 1. *)

Definition demo_load (st : State.t) : State.t :=
  State.mk (State.edges st) (State.tests st) (State.nodes st)
    (State.starter st) (State.permitted_actions st) (State.vars_in_scope st)
    (State.args_in_scope st) (State.zast st) 0 2 1 0 0 0 0 0.

Definition demo_move (st : State.t) (action : Z) : State.t :=
  State.mk (State.edges st) (State.tests st) (State.nodes st)
    (State.starter st) (State.permitted_actions st) (State.vars_in_scope st)
    (State.args_in_scope st) (State.zast st) action (State.num_nodes st)
    (State.num_edges st) (State.num_tests st) (State.num_vars st)
    (State.num_args st) (State.assignment st) (State.code st).

Definition demo_lib : CDLL unit :=
  {| init_c := λ _ e, e;
     take_action := λ st action e, (demo_move st action, e);
     check_ast := λ st e, (if bool_decide (State.cursor st = 1) then 1 else 0, st, e);
     init_assignment := λ st _ _ _ _ e, (demo_load st, e) |}.

(** [ASTEnv(3, 10, 1, [1], 4, "d", max_num_tests=2, max_tree_length=8,
    max_num_vars=2)] on that engine, and a raw state for it. *)
Definition demo_env : ASTEnv unit :=
  {| num_node_descriptor := 10;
     max_num_nodes := 3;
     num_actions := 4;
     max_num_vars := 2;
     perturbation := 0;
     action_space := {| n := 6 |};
     observation_space :=
       ObservationSpace.mk
         {| nvec := 13; nvec_shape := [3] |}
         {| nvec := 4; nvec_shape := [9; 3] |}
         {| bits := 8 |}
         {| nvec := 13; nvec_shape := [3] |}
         {| n := 3 |}
         {| nvec := 4; nvec_shape := [2] |}
         {| nvec := 4; nvec_shape := [2; 2] |}
         {| n := 1 |};
     astclib := demo_lib;
     engine := tt;
     state := None;
     code_per_assignment := [1];
     assignment_dir := "d";
     State_fields :=
       {| size_of := λ f, match f with
                          | Edges => 27
                          | Tests => 4
                          | Nodes => 3
                          | Starter => 3
                          | PermittedActions => 8
                          | VarsInScope => 2
                          | ArgsInScope => 4
                          end%nat;
          zast_size := 8 |} |}.

Definition demo_state : State.t :=
  State.mk
    [1; 2; 3; 4; 5; 6; 7; 8; 9; 1; 2; 3; 4; 5; 6; 7; 8; 9; 1; 2; 3; 4; 5; 6;
     7; 8; 9]
    [0; 0; 0; 0] [5; 6; 7] [5; 6; 8] [1; 0; 1; 0; 1; 0; 1; 0] [0; 9]
    [1; 2; 3; 4] [0; 0; 0; 0; 0; 0; 0; 0] 0 2 1 0 1 1 0 0.

(** The demonstration environment in the middle of an episode. *)
Definition demo_ready : ASTEnv unit := with_state demo_env (Some demo_state) tt.

(** A view of the same memory and row width that is not longer. *)
Definition shorter (a' a : ndarray) : Prop :=
  base a' = base a ∧ width a' = width a ∧ (len a' ≤ len a)%nat.

(** ** The driver of [src/test.py]

    Lines 17-39 of [main]: the loop that plays one episode on an
    environment that has been reset, and the message it prints. *)

(** Lines 22-25: [for i in r: if a[i] == 1: action = i; break]. *)
Fixpoint find_permitted (a : ndarray) (r : list Z) : Eff (option Z) :=
  match r with
  | [] => ret None
  | i :: r' =>
      v <- getitem a i 0 ;;
      if bool_decide (v = 1) then ret (Some i) else find_permitted a r'
  end.

(** Lines 20-25: the first permitted action, or [-1]. *)
Definition first_permitted (obs : Obs.t) : Eff Z :=
  let permitted := Obs.permitted_actions obs in
  found <- find_permitted permitted (range 0 (Z.of_nat (len permitted))) ;;
  ret (default (-1) found).

(** Lines 36-39. *)
Definition verdict (count : Z) : string :=
  if bool_decide (count = 20) then "Too many steps" else "Done!".

Section Driver.

Context {E : Type}.

(** [render] (lines 118-120 of the environment) hands the structure to the
    engine's [print_curr_state], which the binding record does not list. *)
Variable print_curr_state : State.t → E → State.t * E.

Definition render (self : ASTEnv E) : result (ASTEnv E) :=
  match state self with
  | None => Raise TypeError
  | Some st =>
      let '(st, e) := print_curr_state st (engine self) in
      Ok (with_state self (Some st) e)
  end.

(** Lines 19-35: [while not done and count < 20].  The arrays of [obs] are
    read in the structure the environment holds; [fuel] bounds the number
    of iterations and [None] means that it ran out. *)
Fixpoint play (fuel : nat) (self : ASTEnv E) (obs : Obs.t) (done : bool)
    (count : Z) : option (result (Z * bool * ASTEnv E)) :=
  if negb done && bool_decide (count < 20) then
    match fuel with
    | O => None
    | S fuel' =>
        match state self with
        | None => Some (Raise AttributeError)
        | Some st =>
            match first_permitted obs st with
            | Raise x => Some (Raise x)
            | Ok (action, _) =>
                match step self action with
                | Raise x => Some (Raise x)
                | Ok (obs, reward, done, info, self) =>
                    match render self with
                    | Raise x => Some (Raise x)
                    | Ok self => play fuel' self obs done (count + 1)
                    end
                end
            end
        end
    end
  else Some (Ok (count, done, self)).

End Driver.

(** An engine whose tests pass at the twentieth check: it counts the checks
    in its own state. *)
Definition slow_lib : CDLL nat :=
  {| init_c := λ _ e, e;
     take_action := λ st action e, (demo_move st action, e);
     check_ast := λ st e, (if bool_decide (e = 19%nat) then 1 else 0, st, S e);
     init_assignment := λ st _ _ _ _ e, (demo_load st, e) |}.

(** *** More demonstration data *)

(** A structure with other counts, and one with other nodes. *)
Definition set_counts (st : State.t) (nodes edges vars args : Z) : State.t :=
  State.mk (State.edges st) (State.tests st) (State.nodes st)
    (State.starter st) (State.permitted_actions st) (State.vars_in_scope st)
    (State.args_in_scope st) (State.zast st) (State.cursor st)
    nodes edges (State.num_tests st) vars args
    (State.assignment st) (State.code st).

(** An environment with another table of starting codes. *)
Definition with_codes {E} (self : ASTEnv E) (num_assignments : Z)
    (codes : list Z) : ASTEnv E :=
  {| num_node_descriptor := num_node_descriptor self;
     max_num_nodes := max_num_nodes self;
     num_actions := num_actions self;
     max_num_vars := max_num_vars self;
     perturbation := perturbation self;
     action_space := action_space self;
     observation_space :=
       let s := observation_space self in
       ObservationSpace.mk (ObservationSpace.nodes s)
         (ObservationSpace.edges s) (ObservationSpace.permitted_actions s)
         (ObservationSpace.starter s) (ObservationSpace.cursor_position s)
         (ObservationSpace.vars_in_scope s) (ObservationSpace.args_in_scope s)
         {| n := num_assignments |};
     astclib := astclib self;
     engine := engine self;
     state := state self;
     code_per_assignment := codes;
     assignment_dir := assignment_dir self;
     State_fields := State_fields self |}.

(** The demonstration environment on the slow engine, in mid-episode. *)
Definition slow_ready : ASTEnv nat :=
  {| num_node_descriptor := num_node_descriptor demo_env;
     max_num_nodes := max_num_nodes demo_env;
     num_actions := num_actions demo_env;
     max_num_vars := max_num_vars demo_env;
     perturbation := perturbation demo_env;
     action_space := action_space demo_env;
     observation_space := observation_space demo_env;
     astclib := slow_lib;
     engine := 0%nat;
     state := Some demo_state;
     code_per_assignment := code_per_assignment demo_env;
     assignment_dir := assignment_dir demo_env;
     State_fields := State_fields demo_env |}.

(** ** The policy's input dictionary ([src/agent/policy.py], lines 96-110)

    [GNNPolicy.__init__] makes [empty_obs_dict], a dictionary with an empty
    list under every key of the observation space; [unflatten_input] appends
    to these lists.  A list holds what the arrays show when they are
    appended. *)

Module Batch.
Record t := mk {
  nodes : list (list Z);
  edges : list (list (list Z));
  starter : list (list Z);
  permitted_actions : list (list Z);
  cursor_position : list Z;
  vars_in_scope : list (list Z);
  args_in_scope : list (list (list Z));
  assignment : list Z;
}.
End Batch.

(** Lines 96-98. *)
Definition new_obs_dict : Batch.t := Batch.mk [] [] [] [] [] [] [] [].

(** Lines 107-108: [for key, value in datum.items():
    input_dict[key].append(value)], the arrays of [datum] living in [mem]. *)
Definition append_datum (input_dict : Batch.t) (datum : Obs.t)
    (mem : State.t) : Batch.t :=
  Batch.mk
    (Batch.nodes input_dict ++ [to_list mem (Obs.nodes datum)])%list
    (Batch.edges input_dict ++ [to_rows mem (Obs.edges datum)])%list
    (Batch.starter input_dict ++ [to_list mem (Obs.starter datum)])%list
    (Batch.permitted_actions input_dict ++ [to_list mem (Obs.permitted_actions datum)])%list
    (Batch.cursor_position input_dict ++ [Obs.cursor_position datum])%list
    (Batch.vars_in_scope input_dict ++ [to_list mem (Obs.vars_in_scope datum)])%list
    (Batch.args_in_scope input_dict ++ [to_rows mem (Obs.args_in_scope datum)])%list
    (Batch.assignment input_dict ++ [Obs.assignment datum])%list.

Section Policy.

Context {E Row : Type}.

(** [gym.spaces.utils.unflatten]: the dictionary of a flat row, with the
    memory of its new arrays. *)
Variable unflatten : ObservationSpace.t → Row → Obs.t * State.t.

Record GNNPolicy := {
  env : ASTEnv E;
  empty_obs_dict : Batch.t;
}.

(** Lines 103-108, the loop over the rows of [input]. *)
Fixpoint unflatten_rows (env : ASTEnv E) (input : list Row)
    (input_dict : Batch.t) : result Batch.t :=
  match input with
  | [] => Ok input_dict
  | row :: input' =>
      let '(datum, mem) := unflatten (observation_space env) row in
      match unpad_states env datum mem with
      | Raise x => Raise x
      | Ok (datum, mem) =>
          unflatten_rows env input' (append_datum input_dict datum mem)
      end
  end.

(** Lines 100-110.  [input_dict = self.empty_obs_dict] names the policy's
    own dictionary, so the appends land there: the policy that remains
    holds the returned dictionary. *)
Definition unflatten_input (self : GNNPolicy) (input : list Row)
  : result (Batch.t * GNNPolicy) :=
  match unflatten_rows (env self) input (empty_obs_dict self) with
  | Ok input_dict =>
      Ok (input_dict, {| env := env self; empty_obs_dict := input_dict |})
  | Raise x => Raise x
  end.

End Policy.

Arguments GNNPolicy : clear implicits.

(** Every list of [d'] continues the list of [d] by [k] entries. *)
Definition extends_by (k : nat) (d d' : Batch.t) : Prop :=
  (∃ l, Batch.nodes d' = (Batch.nodes d ++ l)%list ∧ length l = k) ∧
  (∃ l, Batch.edges d' = (Batch.edges d ++ l)%list ∧ length l = k) ∧
  (∃ l, Batch.starter d' = (Batch.starter d ++ l)%list ∧ length l = k) ∧
  (∃ l, Batch.permitted_actions d' = (Batch.permitted_actions d ++ l)%list ∧
        length l = k) ∧
  (∃ l, Batch.cursor_position d' = (Batch.cursor_position d ++ l)%list ∧
        length l = k) ∧
  (∃ l, Batch.vars_in_scope d' = (Batch.vars_in_scope d ++ l)%list ∧ length l = k) ∧
  (∃ l, Batch.args_in_scope d' = (Batch.args_in_scope d ++ l)%list ∧ length l = k) ∧
  (∃ l, Batch.assignment d' = (Batch.assignment d ++ l)%list ∧ length l = k).

(** A stand-in for [unflatten] on rows that are already dictionaries. *)
Definition demo_unflatten (_ : ObservationSpace.t) (row : Obs.t * State.t)
  : Obs.t * State.t := row.

(** ** Basic facts on the structure and its buffers *)

Lemma buf_set_buf st f l g :
  buf (set_buf st f l) g = if decide (f = g) then l else buf st g.
Proof. by destruct g. Qed.

Lemma buf_set_buf_eq st f l : buf (set_buf st f l) f = l.
Proof. rewrite buf_set_buf. by case_decide. Qed.

Lemma buf_set_buf_ne st f l g : f ≠ g → buf (set_buf st f l) g = buf st g.
Proof. intros. rewrite buf_set_buf. by case_decide. Qed.

Lemma set_buf_id st f : set_buf st f (buf st f) = st.
Proof. by destruct st, f. Qed.

Lemma set_buf_set_buf st f l l' :
  set_buf (set_buf st f l) f l' = set_buf st f l'.
Proof. by destruct f. Qed.

Lemma set_buf_comm st f g l l' :
  f ≠ g → set_buf (set_buf st f l) g l' = set_buf (set_buf st g l') f l.
Proof. by destruct f, g. Qed.

Lemma norm_index_nonneg k i :
  0 ≤ i < Z.of_nat k → norm_index k i = Some (Z.to_nat i).
Proof. intros. unfold norm_index. by rewrite bool_decide_eq_true_2. Qed.

Lemma offset_marker a i :
  (0 < width a)%nat → 0 ≤ i < Z.of_nat (len a) →
  offset a i 0 = Some (width a * Z.to_nat i)%nat.
Proof.
  intros Hw Hi. unfold offset.
  rewrite !norm_index_nonneg by lia. f_equal. simpl. lia.
Qed.

Lemma range_nil lo hi : hi ≤ lo → range lo hi = [].
Proof. intros. unfold range. apply seqZ_nil. lia. Qed.

Lemma range_cons lo hi : lo < hi → range lo hi = lo :: range (lo + 1) hi.
Proof.
  intros. unfold range. rewrite seqZ_cons by lia.
  f_equal. f_equal; lia.
Qed.

(** *** The buffer after the padding loop *)

Lemma length_pad_buf w c cap l : length (pad_buf w c cap l) = length l.
Proof. apply length_imap. Qed.

Lemma lookup_pad_buf w c cap l p :
  pad_buf w c cap l !! p =
  (λ v, if bool_decide ((p mod w)%nat = 0%nat ∧ c ≤ Z.of_nat (p / w) < cap)
        then -1 else v) <$> l !! p.
Proof. apply list_lookup_imap. Qed.

Lemma pad_buf_empty w c cap l : cap ≤ c → pad_buf w c cap l = l.
Proof.
  intros. apply list_eq; intros p. rewrite lookup_pad_buf.
  rewrite bool_decide_eq_false_2 by lia. by destruct (l !! p).
Qed.

Lemma marker_position w k p :
  (0 < w)%nat → ((p mod w = 0 ∧ p / w = k) ↔ p = w * k)%nat.
Proof.
  intros Hw. split.
  - intros [Hm Hd]. rewrite (Nat.div_mod_eq p w). lia.
  - intros ->. rewrite Nat.mul_comm.
    rewrite Nat.Div0.mod_mul, Nat.div_mul by lia. done.
Qed.

Lemma pad_buf_step w c cap l :
  (0 < w)%nat → 0 ≤ c < cap →
  pad_buf w (c + 1) cap (<[(w * Z.to_nat c)%nat := -1]> l) = pad_buf w c cap l.
Proof.
  intros Hw Hc. apply list_eq; intros p. rewrite !lookup_pad_buf.
  destruct (decide (p = w * Z.to_nat c)%nat) as [->|Hne].
  - destruct (decide (w * Z.to_nat c < length l)%nat).
    + rewrite list_lookup_insert_eq by done.
      destruct (lookup_lt_is_Some_2 l (w * Z.to_nat c)%nat) as [v ->]; [done|].
      simpl. f_equal.
      destruct (marker_position w (Z.to_nat c) (w * Z.to_nat c) Hw) as [_ [Hm Hd]];
        [done|].
      rewrite (bool_decide_eq_true_2 (_ ∧ c ≤ _ < cap)) by (rewrite Hm, Hd; lia).
      by case_bool_decide.
    + rewrite list_insert_ge by lia. rewrite lookup_ge_None_2 by lia. done.
  - rewrite list_lookup_insert_ne by done.
    destruct (l !! p) as [v|]; [simpl; f_equal|done].
    assert (((p mod w)%nat = 0%nat ∧ c + 1 ≤ Z.of_nat (p / w) < cap) ↔
            ((p mod w)%nat = 0%nat ∧ c ≤ Z.of_nat (p / w) < cap)) as Hiff.
    { split.
      - intros [? ?]. split; [done|lia].
      - intros [Hm [Hlo Hhi]]. split; [done|]. split; [|done].
        destruct (decide (Z.of_nat (p / w) = c)) as [Heq|]; [|lia].
        exfalso. apply Hne. apply marker_position; [done|]. split; [done|lia]. }
    by rewrite (bool_decide_ext _ _ Hiff).
Qed.

Lemma lookup_pad_buf_marker w c cap l k :
  (0 < w)%nat → (w * k < length l)%nat → c ≤ Z.of_nat k < cap →
  pad_buf w c cap l !! (w * k)%nat = Some (-1).
Proof.
  intros Hw Hl Hk. rewrite lookup_pad_buf.
  destruct (lookup_lt_is_Some_2 l (w * k)%nat) as [v ->]; [done|]. simpl.
  destruct (marker_position w k (w * k) Hw) as [_ [Hm Hd]]; [done|].
  rewrite bool_decide_eq_true_2; [done|]. rewrite Hm, Hd. lia.
Qed.

Lemma lookup_pad_buf_below w c cap l p :
  (0 < w)%nat → Z.of_nat p < Z.of_nat w * c →
  pad_buf w c cap l !! p = l !! p.
Proof.
  intros Hw Hp. rewrite lookup_pad_buf.
  destruct (l !! p) as [v|]; [simpl; f_equal|done].
  rewrite bool_decide_eq_false_2; [done|]. intros [_ [Hlo _]].
  pose proof (Nat.div_mod_eq p w). nia.
Qed.

Lemma lookup_pad_buf_other w c cap l p :
  (p mod w)%nat ≠ 0%nat → pad_buf w c cap l !! p = l !! p.
Proof.
  intros Hp. rewrite lookup_pad_buf.
  destruct (l !! p) as [v|]; [simpl; f_equal|done].
  rewrite bool_decide_eq_false_2; [done|]. by intros [? _].
Qed.

Lemma pad_buf_idem w c cap l : pad_buf w c cap (pad_buf w c cap l) = pad_buf w c cap l.
Proof.
  apply list_eq; intros p. rewrite !lookup_pad_buf.
  destruct (l !! p) as [v|]; [simpl; f_equal|done].
  by case_bool_decide.
Qed.

Lemma take_pad_buf w c cap l k :
  (0 < w)%nat → Z.of_nat k ≤ Z.of_nat w * c →
  take k (pad_buf w c cap l) = take k l.
Proof.
  intros Hw Hk. apply list_eq; intros p.
  destruct (decide (p < k)%nat).
  - rewrite !lookup_take_lt by done. apply lookup_pad_buf_below; [done|lia].
  - rewrite !lookup_take_ge by lia. done.
Qed.

(** *** The padding loops *)

Lemma setitem_marker a i v st :
  (0 < width a)%nat → 0 ≤ i < Z.of_nat (len a) →
  (width a * len a ≤ length (buf st (base a)))%nat →
  setitem a i 0 v st =
  Ok (tt, set_buf st (base a)
            (<[(width a * Z.to_nat i)%nat := v]> (buf st (base a)))).
Proof.
  intros Hw Hi Hl. unfold setitem. rewrite offset_marker by done.
  rewrite bool_decide_eq_true_2; [done|]. nia.
Qed.

Lemma for_setitem a c cap st :
  (0 < width a)%nat → 0 ≤ c → cap ≤ Z.of_nat (len a) →
  (width a * len a ≤ length (buf st (base a)))%nat →
  for_ (range c cap) (λ i, setitem a i 0 (-1)) st =
  Ok (tt, set_buf st (base a) (pad_buf (width a) c cap (buf st (base a)))).
Proof.
  intros Hw Hc Hcap.
  remember (Z.to_nat (cap - c)) as k eqn:Hk.
  revert c st Hc Hk. induction k as [|k IH]; intros c st Hc Hk Hl.
  - rewrite range_nil by lia. rewrite pad_buf_empty by lia.
    by rewrite set_buf_id.
  - rewrite range_cons by lia. simpl. unfold bind at 1.
    rewrite setitem_marker by (done || lia).
    rewrite IH by (rewrite ?buf_set_buf_eq, ?length_insert; lia || done).
    rewrite buf_set_buf_eq, set_buf_set_buf, pad_buf_step by (done || lia).
    done.
Qed.

Lemma for_setitem2 a b c cap st :
  base a ≠ base b →
  (0 < width a)%nat → (0 < width b)%nat → 0 ≤ c →
  cap ≤ Z.of_nat (len a) → cap ≤ Z.of_nat (len b) →
  (width a * len a ≤ length (buf st (base a)))%nat →
  (width b * len b ≤ length (buf st (base b)))%nat →
  for_ (range c cap) (λ i, setitem a i 0 (-1) ;;; setitem b i 0 (-1)) st =
  Ok (tt, set_buf
            (set_buf st (base a) (pad_buf (width a) c cap (buf st (base a))))
            (base b) (pad_buf (width b) c cap (buf st (base b)))).
Proof.
  intros Hab Hwa Hwb Hc Hca Hcb.
  remember (Z.to_nat (cap - c)) as k eqn:Hk.
  revert c st Hc Hk. induction k as [|k IH]; intros c st Hc Hk Hla Hlb.
  - rewrite range_nil by lia. rewrite !pad_buf_empty by lia.
    by rewrite !set_buf_id.
  - rewrite range_cons by lia. simpl. unfold bind at 1. unfold bind at 1.
    rewrite setitem_marker by (done || lia).
    rewrite setitem_marker
      by (rewrite ?buf_set_buf_ne by done; done || lia).
    rewrite (buf_set_buf_ne _ _ _ (base b)) by done.
    rewrite IH; cycle 1.
    + lia.
    + lia.
    + rewrite buf_set_buf_ne by done.
      rewrite buf_set_buf_eq, length_insert. done.
    + rewrite buf_set_buf_eq, length_insert. done.
    + rewrite (buf_set_buf_ne _ (base b)) by done.
      rewrite !buf_set_buf_eq.
      rewrite !pad_buf_step by (done || lia).
      rewrite (set_buf_comm (set_buf st (base a) _) (base b) (base a))
        by done.
      by rewrite !set_buf_set_buf.
Qed.

Section Padding.

Context {E : Type}.
Implicit Types (self : ASTEnv E) (st : State.t).

#[local] Arguments Nat.div : simpl never.
#[local] Arguments Nat.modulo : simpl never.

Lemma schema_lengths self st :
  schema self → has_layout (State_fields self) st →
  length (State.nodes st) = Z.to_nat (max_num_nodes self) ∧
  length (State.starter st) = Z.to_nat (max_num_nodes self) ∧
  length (State.edges st) = (Z.to_nat (max_num_nodes self * 3) * 3)%nat ∧
  length (State.permitted_actions st) =
    Z.to_nat (num_actions self + max_num_vars self * 2) ∧
  length (State.vars_in_scope st) = Z.to_nat (max_num_vars self) ∧
  length (State.args_in_scope st) = (Z.to_nat (max_num_vars self) * 2)%nat.
Proof.
  intros (Hn & Hs & He & Hp & Hv & Ha) [HL _].
  repeat split.
  - rewrite <- Hn. apply (HL Nodes).
  - rewrite <- Hs. apply (HL Starter).
  - rewrite <- He. apply (HL Edges).
  - rewrite <- Hp. apply (HL PermittedActions).
  - rewrite <- Hv. apply (HL VarsInScope).
  - rewrite <- Ha. apply (HL ArgsInScope).
Qed.

Lemma reshape_flat f k w :
  w ≠ 0%nat → (k mod w = 0)%nat →
  reshape {| base := f; len := k; width := 1 |} w =
  Ok {| base := f; len := (k * 1) / w; width := w |}.
Proof.
  intros Hw Hk. unfold reshape. cbn [len width base].
  rewrite bool_decide_eq_true_2; [done|]. by rewrite Nat.mul_1_r.
Qed.

Lemma state_dict_spec st :
  (length (State.edges st) mod 3 = 0)%nat →
  (length (State.args_in_scope st) mod 2 = 0)%nat →
  state_dict st = Ok (state_views st, st).
Proof.
  intros He Ha. unfold state_dict, bind, as_array, lift, gets, ret.
  rewrite !reshape_flat by done. done.
Qed.

Lemma state_dict_ready self st :
  schema self → has_layout (State_fields self) st →
  state_dict st = Ok (state_views st, st).
Proof.
  intros Hs HL.
  destruct (schema_lengths self st Hs HL) as (_ & _ & He & _ & _ & Ha).
  apply state_dict_spec.
  - rewrite He. apply Nat.Div0.mod_mul.
  - rewrite Ha. apply Nat.Div0.mod_mul.
Qed.

Lemma pad_states_spec self st :
  schema self → has_layout (State_fields self) st →
  counts_in_capacity self st →
  pad_states self (state_views st) st = Ok (state_views st, padded self st).
Proof.
  intros Hs HL (Hn & He & Hv & Ha).
  destruct (schema_lengths self st Hs HL) as (Ln & Ls & Le & _ & Lv & La).
  assert (length (State.edges st) * 1 / 3 =
          Z.to_nat (max_num_nodes self * 3))%nat as Le'
    by (rewrite Le, Nat.mul_1_r, Nat.div_mul; lia).
  assert (length (State.args_in_scope st) * 1 / 2 =
          Z.to_nat (max_num_vars self))%nat as La'
    by (rewrite La, Nat.mul_1_r, Nat.div_mul; lia).
  unfold pad_states, padded. unfold bind at 1. unfold gets at 1.
  unfold bind at 1.
  rewrite for_setitem2; simpl; try done; try lia.
  unfold bind at 1. unfold gets at 1. unfold bind at 1.
  rewrite for_setitem; simpl; try done; try lia.
  unfold bind at 1. unfold gets at 1. unfold bind at 1.
  rewrite for_setitem; simpl; try done; try lia.
  unfold bind at 1. unfold gets at 1. unfold bind at 1.
  rewrite for_setitem; simpl; try done; try lia.
Qed.


Lemma get_state_spec self st :
  schema self → has_layout (State_fields self) st →
  counts_in_capacity self st →
  get_state self st = Ok (state_views st, padded self st).
Proof.
  intros Hs HL Hc. unfold get_state, bind.
  rewrite (state_dict_ready self) by done.
  by apply pad_states_spec.
Qed.

(** Padding changes no length, no count and no scalar. *)
Lemma padded_length self st f :
  length (buf (padded self st) f) = length (buf st f).
Proof.
  unfold padded. destruct f; simpl; by rewrite ?length_pad_buf.
Qed.

Lemma padded_layout self L st : has_layout L st → has_layout L (padded self st).
Proof.
  intros [HL Hz]. split; [|done].
  intros f. rewrite padded_length. apply HL.
Qed.

Lemma padded_counts self st :
  counts_in_capacity self st → counts_in_capacity self (padded self st).
Proof. done. Qed.

Lemma padded_views self st : state_views (padded self st) = state_views st.
Proof.
  unfold state_views, padded. simpl. by rewrite !length_pad_buf.
Qed.

Lemma padded_idem self st : padded self (padded self st) = padded self st.
Proof.
  unfold padded. destruct st. simpl. by rewrite !pad_buf_idem.
Qed.

(** *** The scan of [unpad_states] *)

Lemma find_sentinel_spec (a : ndarray) c cap st :
  (∀ k, c ≤ k < cap → is_Some (item st a k 0)) →
  ∃ r, find_sentinel a (range c cap) st = Ok (r, st) ∧
       first_sentinel st a c cap r.
Proof.
  remember (Z.to_nat (cap - c)) as m eqn:Hm.
  revert c Hm. induction m as [|m IH]; intros c Hm Hread.
  - exists None. rewrite range_nil by lia. split; [done|].
    intros k Hk. lia.
  - rewrite range_cons by lia. simpl. unfold bind, getitem.
    destruct (Hread c) as [v Hv]; [lia|]. rewrite Hv.
    case_bool_decide as Hs.
    + exists (Some c). split; [done|]. subst v.
      split; [lia|]. split; [done|]. intros k Hk. lia.
    + destruct (IH (c + 1)) as (r & Hr & Hf); [lia|intros; apply Hread; lia|].
      exists r. split; [done|].
      assert (item st a c 0 ≠ Some (-1)) as Hc by (rewrite Hv; congruence).
      destruct r as [i|]; simpl in *.
      * destruct Hf as (Hi & Hit & Hbefore). split; [lia|]. split; [done|].
        intros k Hk. destruct (decide (k = c)) as [->|]; [done|].
        apply Hbefore. lia.
      * intros k Hk. destruct (decide (k = c)) as [->|]; [done|].
        apply Hf. lia.
Qed.

Lemma first_sentinel_unique st (a : ndarray) c cap r r' :
  first_sentinel st a c cap r → first_sentinel st a c cap r' → r = r'.
Proof.
  destruct r as [i|], r' as [i'|]; simpl.
  - intros (Hi & Hit & Hb) (Hi' & Hit' & Hb'). f_equal.
    destruct (Z.lt_trichotomy i i') as [Hlt|[Heq|Hgt]]; [|done|].
    + exfalso. apply (Hb' i); [lia|done].
    + exfalso. apply (Hb i'); [lia|done].
  - intros (Hi & Hit & _) Hn. exfalso. by apply (Hn i).
  - intros Hn (Hi & Hit & _). exfalso. by apply (Hn i').
  - done.
Qed.

(** The whole of [unpad_states], for views whose scanned items exist. *)
Lemma unpad_states_spec self (state : Obs.t) st :
  (∀ k, 0 ≤ k < max_num_nodes self → is_Some (item st (Obs.nodes state) k 0)) →
  (∀ k, 0 ≤ k < max_num_nodes self * 3 →
     is_Some (item st (Obs.edges state) k 0)) →
  (∀ k, 0 ≤ k < max_num_vars self →
     is_Some (item st (Obs.vars_in_scope state) k 0)) →
  (∀ k, 0 ≤ k < max_num_vars self →
     is_Some (item st (Obs.args_in_scope state) k 0)) →
  ∃ r1 r2 r3 r4,
    unpad_states self state st =
    Ok (Obs.mk (cut r1 (Obs.nodes state)) (cut r2 (Obs.edges state))
          (cut r1 (Obs.starter state)) (Obs.permitted_actions state)
          (Obs.cursor_position state) (cut r3 (Obs.vars_in_scope state))
          (cut r4 (Obs.args_in_scope state)) (Obs.assignment state), st) ∧
    first_sentinel st (Obs.nodes state) 0 (max_num_nodes self) r1 ∧
    first_sentinel st (Obs.edges state) 0 (max_num_nodes self * 3) r2 ∧
    first_sentinel st (Obs.vars_in_scope state) 0 (max_num_vars self) r3 ∧
    first_sentinel st (Obs.args_in_scope state) 0 (max_num_vars self) r4.
Proof.
  intros H1 H2 H3 H4.
  destruct (find_sentinel_spec _ _ _ _ H1) as (r1 & E1 & F1).
  destruct (find_sentinel_spec _ _ _ _ H2) as (r2 & E2 & F2).
  destruct (find_sentinel_spec _ _ _ _ H3) as (r3 & E3 & F3).
  destruct (find_sentinel_spec _ _ _ _ H4) as (r4 & E4 & F4).
  exists r1, r2, r3, r4. split; [|done].
  unfold unpad_states. unfold bind at 1. rewrite E1.
  destruct state as [nd ed sr pa cp vs ar asg]. 
  destruct r1 as [i1|]; cbn [Obs.nodes Obs.edges Obs.starter Obs.vars_in_scope
    Obs.args_in_scope Obs.permitted_actions Obs.cursor_position Obs.assignment
    set_nodes set_starter set_edges set_vars_in_scope set_args_in_scope cut] in *;
  unfold bind at 1; rewrite E2;
  destruct r2 as [i2|]; cbn [Obs.nodes Obs.edges Obs.starter Obs.vars_in_scope
    Obs.args_in_scope Obs.permitted_actions Obs.cursor_position Obs.assignment
    set_nodes set_starter set_edges set_vars_in_scope set_args_in_scope cut] in *;
  unfold bind at 1; rewrite E3;
  destruct r3 as [i3|]; cbn [Obs.nodes Obs.edges Obs.starter Obs.vars_in_scope
    Obs.args_in_scope Obs.permitted_actions Obs.cursor_position Obs.assignment
    set_nodes set_starter set_edges set_vars_in_scope set_args_in_scope cut] in *;
  unfold bind at 1; rewrite E4;
  destruct r4 as [i4|]; done.
Qed.


(** *** Reading through a view *)

Lemma norm_index_lt k i r : norm_index k i = Some r → (r < k)%nat.
Proof.
  unfold norm_index. repeat case_bool_decide; intros; simplify_eq; lia.
Qed.

Lemma item_marker st (a : ndarray) i :
  (0 < width a)%nat → 0 ≤ i < Z.of_nat (len a) →
  item st a i 0 = buf st (base a) !! (width a * Z.to_nat i)%nat.
Proof. intros. unfold item. by rewrite offset_marker. Qed.

Lemma item_exists st (a : ndarray) i :
  (0 < width a)%nat → 0 ≤ i < Z.of_nat (len a) →
  (width a * len a ≤ length (buf st (base a)))%nat →
  is_Some (item st a i 0).
Proof.
  intros. rewrite item_marker by done. apply lookup_lt_is_Some_2. nia.
Qed.

Lemma item_ext st st' (a : ndarray) i j :
  buf st' (base a) = buf st (base a) → item st' a i j = item st a i j.
Proof. intros Hb. unfold item. by rewrite Hb. Qed.

Lemma item_pad_marker st st' (a : ndarray) c cap i :
  buf st' (base a) = pad_buf (width a) c cap (buf st (base a)) →
  (0 < width a)%nat → 0 ≤ i < Z.of_nat (len a) →
  (width a * len a ≤ length (buf st (base a)))%nat →
  c ≤ i < cap →
  item st' a i 0 = Some (-1).
Proof.
  intros Hb Hw Hi Hl Hc. rewrite item_marker, Hb by done.
  apply lookup_pad_buf_marker; [done|nia|lia].
Qed.

Lemma item_pad_below st st' (a : ndarray) c cap i j :
  buf st' (base a) = pad_buf (width a) c cap (buf st (base a)) →
  0 ≤ i < c → i < Z.of_nat (len a) →
  item st' a i j = item st a i j.
Proof.
  intros Hb Hi Hl. unfold item, offset.
  rewrite norm_index_nonneg by lia.
  destruct (norm_index (width a) j) as [q|] eqn:Hq; [|done].
  apply norm_index_lt in Hq. rewrite Hb.
  apply lookup_pad_buf_below; [lia|nia].
Qed.

(** A padded field is scanned up to its count. *)
Lemma scan_padded st st' (a : ndarray) c cap :
  buf st' (base a) = pad_buf (width a) c cap (buf st (base a)) →
  (0 < width a)%nat → 0 ≤ c ≤ cap → cap = Z.of_nat (len a) →
  (width a * len a ≤ length (buf st (base a)))%nat →
  (∀ k v, 0 ≤ k < c → item st a k 0 = Some v → 0 ≤ v) →
  first_sentinel st' a 0 cap (if bool_decide (c < cap) then Some c else None).
Proof.
  intros Hb Hw Hc Hcap Hl Hlive.
  assert (∀ k, 0 ≤ k < c → item st' a k 0 ≠ Some (-1)) as Hbelow.
  { intros k Hk Hit. rewrite (item_pad_below st st' a c cap) in Hit
      by (done || lia).
    apply Hlive in Hit; lia. }
  case_bool_decide; simpl.
  - split; [lia|]. split; [|done].
    apply (item_pad_marker st st' a c cap); done || lia.
  - intros k Hk. apply Hbelow. lia.
Qed.

Lemma len_cut_count (a : ndarray) c cap :
  0 ≤ c ≤ cap → cap = Z.of_nat (len a) →
  len (cut (if bool_decide (c < cap) then Some c else None) a) = Z.to_nat c.
Proof.
  intros Hc Hcap. case_bool_decide; simpl.
  - rewrite bool_decide_eq_false_2 by lia. lia.
  - lia.
Qed.

Lemma base_cut r (a : ndarray) : base (cut r a) = base a.
Proof. by destruct r. Qed.

Lemma width_cut r (a : ndarray) : width (cut r a) = width a.
Proof. by destruct r. Qed.

Lemma rows_take w k l l' :
  take (w * k) l = take (w * k) l' → rows w k l = rows w k l'.
Proof.
  intros Ht. unfold rows. apply list_fmap_ext. intros i r Hr.
  apply lookup_seq in Hr as [-> Hr]. simpl.
  apply list_eq; intros q.
  destruct (decide (q < w)%nat).
  - rewrite !lookup_take_lt, !lookup_drop by done.
    assert (w * i + q < w * k)%nat as Hlt by nia.
    rewrite <- (lookup_take_lt l (w * k)), <- (lookup_take_lt l' (w * k)) by done.
    by rewrite Ht.
  - rewrite !lookup_take_ge by lia. done.
Qed.

End Padding.
Section PaddingTheorems.

Context {E : Type}.
Implicit Types (self : ASTEnv E) (st : State.t).

#[local] Arguments Nat.div : simpl never.
#[local] Arguments Nat.modulo : simpl never.

(** The views of [state_dict] cover the buffers of a declared structure. *)
Lemma state_views_cover self st :
  schema self → has_layout (State_fields self) st →
  let state := state_views st in
  Z.of_nat (len (Obs.nodes state)) = Z.max 0 (max_num_nodes self) ∧
  Z.of_nat (len (Obs.starter state)) = Z.max 0 (max_num_nodes self) ∧
  Z.of_nat (len (Obs.edges state)) = Z.max 0 (max_num_nodes self * 3) ∧
  Z.of_nat (len (Obs.vars_in_scope state)) = Z.max 0 (max_num_vars self) ∧
  Z.of_nat (len (Obs.args_in_scope state)) = Z.max 0 (max_num_vars self) ∧
  Z.of_nat (len (Obs.permitted_actions state)) =
    Z.max 0 (num_actions self + max_num_vars self * 2).
Proof.
  intros Hs HL.
  destruct (schema_lengths self st Hs HL) as (Ln & Ls & Le & Lp & Lv & La).
  simpl. rewrite Ln, Ls, Le, Lp, Lv, La.
  rewrite !Nat.mul_1_r, !Nat.div_mul by lia. lia.
Qed.

Lemma padded_bufs self st :
  let N := max_num_nodes self in
  let V := max_num_vars self in
  buf (padded self st) Nodes = pad_buf 1 (State.num_nodes st) N (State.nodes st) ∧
  buf (padded self st) Starter =
    pad_buf 1 (State.num_nodes st) N (State.starter st) ∧
  buf (padded self st) Edges =
    pad_buf 3 (State.num_edges st) (N * 3) (State.edges st) ∧
  buf (padded self st) VarsInScope =
    pad_buf 1 (State.num_vars st) V (State.vars_in_scope st) ∧
  buf (padded self st) ArgsInScope =
    pad_buf 2 (State.num_args st) V (State.args_in_scope st) ∧
  buf (padded self st) PermittedActions = State.permitted_actions st ∧
  buf (padded self st) Tests = State.tests st.
Proof. done. Qed.

(** C2.  On a raw state whose counts fit the capacities, [pad_states] puts
    the sentinel [-1] in [nodes[i]] and [starter[i]] from [num_nodes] on, in
    [edges[i][0]] from [num_edges] on, in [vars_in_scope[i]] from [num_vars]
    on and in [args_in_scope[i][0]] from [num_args] on, up to the
    capacities; every row below the count reads as before. *)
Theorem pad_states_sentinels self st (state : Obs.t) :
  schema self → has_layout (State_fields self) st →
  counts_in_capacity self st →
  state_dict st = Ok (state, st) →
  ∃ st', pad_states self state st = Ok (state, st') ∧
    (∀ i, State.num_nodes st ≤ i < max_num_nodes self →
       item st' (Obs.nodes state) i 0 = Some (-1) ∧
       item st' (Obs.starter state) i 0 = Some (-1)) ∧
    (∀ i, State.num_edges st ≤ i < 3 * max_num_nodes self →
       item st' (Obs.edges state) i 0 = Some (-1)) ∧
    (∀ i, State.num_vars st ≤ i < max_num_vars self →
       item st' (Obs.vars_in_scope state) i 0 = Some (-1)) ∧
    (∀ i, State.num_args st ≤ i < max_num_vars self →
       item st' (Obs.args_in_scope state) i 0 = Some (-1)) ∧
    (∀ i j, 0 ≤ i < State.num_nodes st →
       item st' (Obs.nodes state) i j = item st (Obs.nodes state) i j ∧
       item st' (Obs.starter state) i j = item st (Obs.starter state) i j) ∧
    (∀ i j, 0 ≤ i < State.num_edges st →
       item st' (Obs.edges state) i j = item st (Obs.edges state) i j) ∧
    (∀ i j, 0 ≤ i < State.num_vars st →
       item st' (Obs.vars_in_scope state) i j =
       item st (Obs.vars_in_scope state) i j) ∧
    (∀ i j, 0 ≤ i < State.num_args st →
       item st' (Obs.args_in_scope state) i j =
       item st (Obs.args_in_scope state) i j).
Proof.
  intros Hs HL Hc Hd.
  rewrite (state_dict_ready self) in Hd by done.
  injection Hd as <-.
  exists (padded self st). split; [by apply pad_states_spec|].
  destruct (state_views_cover self st Hs HL) as (Vn & Vs & Ve & Vv & Va & _).
  destruct (schema_lengths self st Hs HL) as (Ln & Ls & Le & _ & Lv & La).
  destruct (padded_bufs self st) as (Bn & Bs & Be & Bv & Ba & _).
  destruct Hc as (Hn & He & Hv & Ha).
  repeat split; intros.
  - eapply (item_pad_marker st); [exact Bn|simpl; lia..].
  - eapply (item_pad_marker st); [exact Bs|simpl; lia..].
  - eapply (item_pad_marker st); [exact Be|simpl in *; lia..].
  - eapply (item_pad_marker st); [exact Bv|simpl; lia..].
  - eapply (item_pad_marker st); [exact Ba|simpl in *; lia..].
  - eapply (item_pad_below st); [exact Bn|lia..].
  - eapply (item_pad_below st); [exact Bs|lia..].
  - eapply (item_pad_below st); [exact Be|lia..].
  - eapply (item_pad_below st); [exact Bv|lia..].
  - eapply (item_pad_below st); [exact Ba|lia..].
Qed.

(** C9.  Padding is idempotent: [pad_states] applied again to the padded
    observation, the counts being the same, gives the same observation and
    leaves every entry of the memory as it is. *)
Theorem pad_states_idempotent self st :
  schema self → has_layout (State_fields self) st →
  counts_in_capacity self st →
  ∃ state st',
    get_state self st = Ok (state, st') ∧
    pad_states self state st' = Ok (state, st').
Proof.
  intros Hs HL Hc. exists (state_views st), (padded self st).
  split; [by apply get_state_spec|].
  rewrite <- (padded_views self st) at 1.
  rewrite pad_states_spec
    by (done || by apply padded_layout || by apply padded_counts).
  by rewrite padded_views, padded_idem.
Qed.


(** Every item that [unpad_states] scans in a full view exists. *)
Lemma state_views_readable self st :
  schema self → has_layout (State_fields self) st →
  let state := state_views st in
  (∀ k, 0 ≤ k < max_num_nodes self → is_Some (item st (Obs.nodes state) k 0)) ∧
  (∀ k, 0 ≤ k < max_num_nodes self * 3 →
     is_Some (item st (Obs.edges state) k 0)) ∧
  (∀ k, 0 ≤ k < max_num_vars self →
     is_Some (item st (Obs.vars_in_scope state) k 0)) ∧
  (∀ k, 0 ≤ k < max_num_vars self →
     is_Some (item st (Obs.args_in_scope state) k 0)).
Proof.
  intros Hs HL.
  destruct (state_views_cover self st Hs HL) as (Vn & Vs & Ve & Vv & Va & _).
  destruct (schema_lengths self st Hs HL) as (Ln & Ls & Le & _ & Lv & La).
  repeat split; intros; apply item_exists; simpl in *; lia.
Qed.

Lemma live_markers_items self st :
  schema self → has_layout (State_fields self) st → I1 self st →
  let state := state_views st in
  (∀ k v, 0 ≤ k < State.num_nodes st →
     item st (Obs.nodes state) k 0 = Some v → 0 ≤ v) ∧
  (∀ k v, 0 ≤ k < State.num_edges st →
     item st (Obs.edges state) k 0 = Some v → 0 ≤ v) ∧
  (∀ k v, 0 ≤ k < State.num_vars st →
     item st (Obs.vars_in_scope state) k 0 = Some v → 0 ≤ v) ∧
  (∀ k v, 0 ≤ k < State.num_args st →
     item st (Obs.args_in_scope state) k 0 = Some v → 0 ≤ v).
Proof.
  intros Hs HL [(Hn & He & Hv & Ha) (Mn & Me & Mv & Ma)].
  destruct (state_views_cover self st Hs HL) as (Vn & Vs & Ve & Vv & Va & _).
  repeat split; intros k v Hk Hit;
    rewrite item_marker in Hit by (simpl in *; lia); simpl in Hit.
  - apply (Mn (Z.to_nat k)); [lia|]. by rewrite Nat.add_0_r in Hit.
  - apply (Me (Z.to_nat k)); [lia|done].
  - apply (Mv (Z.to_nat k)); [lia|]. by rewrite Nat.add_0_r in Hit.
  - apply (Ma (Z.to_nat k)); [lia|done].
Qed.

(** C1.  Round trip: for a raw state that satisfies I1, [unpad_states] on
    the observation that [pad_states] produced shows exactly the live
    slices: the first [num_nodes] entries of [nodes] and [starter], the
    first [num_edges] rows of [edges], the first [num_vars] entries of
    [vars_in_scope] and the first [num_args] rows of [args_in_scope]. *)
Theorem unpad_pad_roundtrip self st :
  schema self → has_layout (State_fields self) st → I1 self st →
  ∃ padded_obs st' state,
    get_state self st = Ok (padded_obs, st') ∧
    unpad_states self padded_obs st' = Ok (state, st') ∧
    to_list st' (Obs.nodes state) =
      take (Z.to_nat (State.num_nodes st)) (State.nodes st) ∧
    to_list st' (Obs.starter state) =
      take (Z.to_nat (State.num_nodes st)) (State.starter st) ∧
    to_rows st' (Obs.edges state) =
      rows 3 (Z.to_nat (State.num_edges st)) (State.edges st) ∧
    to_list st' (Obs.vars_in_scope state) =
      take (Z.to_nat (State.num_vars st)) (State.vars_in_scope st) ∧
    to_rows st' (Obs.args_in_scope state) =
      rows 2 (Z.to_nat (State.num_args st)) (State.args_in_scope st).
Proof.
  intros Hs HL HI. pose proof HI as [Hc _].
  pose proof (padded_layout self _ st HL) as HL'.
  destruct (state_views_cover self st Hs HL) as (Vn & Vs & Ve & Vv & Va & _).
  destruct (schema_lengths self st Hs HL) as (Ln & Ls & Le & _ & Lv & La).
  destruct (padded_bufs self st) as (Bn & Bs & Be & Bv & Ba & _).
  destruct (live_markers_items self st Hs HL HI) as (Mn & Me & Mv & Ma).
  destruct (state_views_readable self (padded self st) Hs HL')
    as (Rn & Re & Rv & Ra).
  rewrite padded_views in Rn, Re, Rv, Ra.
  destruct (unpad_states_spec self (state_views st) (padded self st)
              Rn Re Rv Ra) as (r1 & r2 & r3 & r4 & Hu & F1 & F2 & F3 & F4).
  destruct Hc as (Hn & He & Hv & Ha).
  eapply first_sentinel_unique in F1;
    [|apply (scan_padded st _ _ (State.num_nodes st)); [exact Bn|simpl in *; lia..|exact Mn]].
  eapply first_sentinel_unique in F2;
    [|apply (scan_padded st _ _ (State.num_edges st)); [exact Be|simpl in *; lia..|exact Me]].
  eapply first_sentinel_unique in F3;
    [|apply (scan_padded st _ _ (State.num_vars st)); [exact Bv|simpl in *; lia..|exact Mv]].
  eapply first_sentinel_unique in F4;
    [|apply (scan_padded st _ _ (State.num_args st)); [exact Ba|simpl in *; lia..|exact Ma]].
  subst r1 r2 r3 r4.
  eexists _, _, _. split; [by apply get_state_spec|]. split; [exact Hu|].
  unfold to_list, to_rows. cbn [Obs.nodes Obs.starter Obs.edges
    Obs.vars_in_scope Obs.args_in_scope].
  rewrite !base_cut, !width_cut.
  rewrite !len_cut_count by (simpl in *; lia).
  cbn [state_views Obs.nodes Obs.starter Obs.edges Obs.vars_in_scope
    Obs.args_in_scope base width].
  rewrite Bn, Bs, Be, Bv, Ba.
  repeat split.
  - apply take_pad_buf; lia.
  - apply take_pad_buf; lia.
  - apply rows_take, take_pad_buf; lia.
  - apply take_pad_buf; lia.
  - apply rows_take, take_pad_buf; lia.
Qed.


Lemma first_sentinel_ext st st' (a : ndarray) c cap r :
  buf st' (base a) = buf st (base a) →
  first_sentinel st a c cap r → first_sentinel st' a c cap r.
Proof.
  intros Hb. destruct r as [i|]; simpl.
  - intros (Hi & Hit & Hbefore). split; [done|]. split.
    + by rewrite (item_ext st st').
    + intros k Hk. rewrite (item_ext st st') by done. by apply Hbefore.
  - intros Hn k Hk. rewrite (item_ext st st') by done. by apply Hn.
Qed.

Lemma cut_no_sentinel st (a : ndarray) cap r :
  first_sentinel st a 0 cap r → no_sentinel st a cap → cut r a = a.
Proof.
  intros Hf Hn. by rewrite (first_sentinel_unique st a 0 cap r None Hf Hn).
Qed.

(** C7.  In a padded observation, a field whose marker positions hold no
    sentinel within the capacity is returned by [unpad_states] as it is, at
    capacity length; in particular a raw state with exactly [max_num_nodes]
    live nodes is encoded without a sentinel in [nodes] and decodes to the
    whole array. *)
Theorem unpad_states_full_capacity self st (state : Obs.t) :
  schema self → has_layout (State_fields self) st →
  state_dict st = Ok (state, st) →
  (∃ state', unpad_states self state st = Ok (state', st) ∧
     (no_sentinel st (Obs.nodes state) (max_num_nodes self) →
        Obs.nodes state' = Obs.nodes state ∧
        Obs.starter state' = Obs.starter state ∧
        to_list st (Obs.nodes state') = State.nodes st) ∧
     (no_sentinel st (Obs.edges state) (max_num_nodes self * 3) →
        Obs.edges state' = Obs.edges state ∧
        Z.of_nat (len (Obs.edges state')) = Z.max 0 (max_num_nodes self * 3)) ∧
     (no_sentinel st (Obs.vars_in_scope state) (max_num_vars self) →
        Obs.vars_in_scope state' = Obs.vars_in_scope state ∧
        to_list st (Obs.vars_in_scope state') = State.vars_in_scope st) ∧
     (no_sentinel st (Obs.args_in_scope state) (max_num_vars self) →
        Obs.args_in_scope state' = Obs.args_in_scope state ∧
        Z.of_nat (len (Obs.args_in_scope state')) =
          Z.max 0 (max_num_vars self))) ∧
  (I1 self st → State.num_nodes st = max_num_nodes self →
   ∃ padded_obs st' state',
     get_state self st = Ok (padded_obs, st') ∧
     no_sentinel st' (Obs.nodes padded_obs) (max_num_nodes self) ∧
     unpad_states self padded_obs st' = Ok (state', st') ∧
     Obs.nodes state' = Obs.nodes padded_obs ∧
     to_list st' (Obs.nodes state') = State.nodes st).
Proof.
  intros Hs HL Hd.
  rewrite (state_dict_ready self) in Hd by done. injection Hd as <-.
  destruct (state_views_cover self st Hs HL) as (Vn & Vs & Ve & Vv & Va & _).
  split.
  - destruct (state_views_readable self st Hs HL) as (Rn & Re & Rv & Ra).
    destruct (unpad_states_spec self (state_views st) st Rn Re Rv Ra)
      as (r1 & r2 & r3 & r4 & Hu & F1 & F2 & F3 & F4).
    eexists. split; [exact Hu|].
    cbn [Obs.nodes Obs.starter Obs.edges Obs.vars_in_scope Obs.args_in_scope].
    repeat split.
    + by rewrite (cut_no_sentinel _ _ _ _ F1).
    + by rewrite (first_sentinel_unique _ _ _ _ _ None F1).
    + rewrite (cut_no_sentinel _ _ _ _ F1) by done.
      unfold to_list. simpl. apply take_ge. lia.
    + by rewrite (cut_no_sentinel _ _ _ _ F2).
    + rewrite (cut_no_sentinel _ _ _ _ F2) by done. exact Ve.
    + by rewrite (cut_no_sentinel _ _ _ _ F3).
    + rewrite (cut_no_sentinel _ _ _ _ F3) by done.
      unfold to_list. simpl. apply take_ge. lia.
    + by rewrite (cut_no_sentinel _ _ _ _ F4).
    + rewrite (cut_no_sentinel _ _ _ _ F4) by done. exact Va.
  - intros HI Hfull. pose proof HI as [(Hn & He & Hv & Ha) _].
    pose proof (padded_layout self _ st HL) as HL'.
    destruct (schema_lengths self st Hs HL) as (Ln & _).
    destruct (padded_bufs self st) as (Bn & _).
    destruct (live_markers_items self st Hs HL HI) as (Mn & _).
    destruct (state_views_readable self (padded self st) Hs HL')
      as (Rn & Re & Rv & Ra).
    rewrite padded_views in Rn, Re, Rv, Ra.
    destruct (unpad_states_spec self (state_views st) (padded self st)
                Rn Re Rv Ra) as (r1 & r2 & r3 & r4 & Hu & F1 & _).
    assert (no_sentinel (padded self st) (Obs.nodes (state_views st))
              (max_num_nodes self)) as Hno.
    { pose proof (scan_padded st (padded self st) (Obs.nodes (state_views st))
                    (State.num_nodes st) (max_num_nodes self)) as Hscan.
      rewrite bool_decide_eq_false_2 in Hscan by lia.
      apply Hscan; [exact Bn|simpl in *; lia..|exact Mn]. }
    eexists _, _, _. split; [by apply get_state_spec|].
    split; [exact Hno|]. split; [exact Hu|].
    cbn [Obs.nodes]. rewrite (cut_no_sentinel _ _ _ _ F1 Hno).
    split; [done|]. unfold to_list.
    cbn [state_views Obs.nodes base len].
    rewrite Bn, take_pad_buf by lia. apply take_ge. lia.
Qed.

(** C10.  [unpad_states] takes the boundary of [starter] from [nodes] alone:
    at the first sentinel [nodes[i]] both [nodes] and [starter] are cut to
    length [i]; the result is the same whatever [starter] holds; and
    without a sentinel in [nodes], [starter] comes back at full capacity. *)
Theorem unpad_states_starter_follows_nodes self st (state : Obs.t) :
  schema self → has_layout (State_fields self) st →
  state_dict st = Ok (state, st) →
  ∃ state', unpad_states self state st = Ok (state', st) ∧
    (∀ i, first_sentinel st (Obs.nodes state) 0 (max_num_nodes self) (Some i) →
       Obs.nodes state' = slice_to (Obs.nodes state) i ∧
       Obs.starter state' = slice_to (Obs.starter state) i ∧
       len (Obs.nodes state') = Z.to_nat i ∧
       len (Obs.starter state') = Z.to_nat i) ∧
    (∀ l, unpad_states self state (set_buf st Starter l) =
          Ok (state', set_buf st Starter l)) ∧
    (no_sentinel st (Obs.nodes state) (max_num_nodes self) →
       Obs.starter state' = Obs.starter state ∧
       Z.of_nat (len (Obs.starter state')) = Z.max 0 (max_num_nodes self)).
Proof.
  intros Hs HL Hd.
  rewrite (state_dict_ready self) in Hd by done. injection Hd as <-.
  destruct (state_views_cover self st Hs HL) as (Vn & Vs & Ve & Vv & Va & _).
  destruct (state_views_readable self st Hs HL) as (Rn & Re & Rv & Ra).
  destruct (unpad_states_spec self (state_views st) st Rn Re Rv Ra)
    as (r1 & r2 & r3 & r4 & Hu & F1 & F2 & F3 & F4).
  eexists. split; [exact Hu|].
  cbn [Obs.nodes Obs.starter]. split; [|split; [|split]].
  - intros i Hfirst.
    rewrite (first_sentinel_unique _ _ _ _ _ _ F1 Hfirst).
    destruct Hfirst as (Hi & _). simpl in *.
    rewrite bool_decide_eq_false_2 by lia. repeat split; lia.
  - intros l. set (st2 := set_buf st Starter l).
    assert (∀ a : ndarray, base a ≠ Starter → buf st2 (base a) = buf st (base a))
      as Hsame by (intros a Ha; apply buf_set_buf_ne; congruence).
    assert (∀ (a : ndarray) cap, base a ≠ Starter →
              (∀ k, 0 ≤ k < cap → is_Some (item st a k 0)) →
              ∀ k, 0 ≤ k < cap → is_Some (item st2 a k 0)) as Hread.
    { intros a cap Ha Hr k Hk. rewrite (item_ext st st2) by by apply Hsame.
      by apply Hr. }
    destruct (unpad_states_spec self (state_views st) st2)
      as (q1 & q2 & q3 & q4 & Hu2 & G1 & G2 & G3 & G4);
      [by apply Hread..|].
    rewrite Hu2.
    rewrite (first_sentinel_unique _ _ _ _ q1 r1 G1)
      by (by apply (first_sentinel_ext st); [apply Hsame|]).
    rewrite (first_sentinel_unique _ _ _ _ q2 r2 G2)
      by (by apply (first_sentinel_ext st); [apply Hsame|]).
    rewrite (first_sentinel_unique _ _ _ _ q3 r3 G3)
      by (by apply (first_sentinel_ext st); [apply Hsame|]).
    rewrite (first_sentinel_unique _ _ _ _ q4 r4 G4)
      by (by apply (first_sentinel_ext st); [apply Hsame|]).
    done.
  - by rewrite (first_sentinel_unique _ _ _ _ _ None F1).
  - rewrite (first_sentinel_unique _ _ _ _ _ None F1) by done. exact Vs.
Qed.


(** C3, as the code has it.  [get_state] and [pad_states] keep the counts,
    the scalars, [permitted_actions], [tests], [zast], every length, every
    row below its count and every component of a row other than the first;
    but they write the sentinel [-1] into the engine's own buffer, at every
    marker position from the count up to the capacity, and the arrays of the
    returned observation are views of that buffer: whatever the structure
    holds later is what they show. *)
Theorem get_state_frame self st :
  schema self → has_layout (State_fields self) st →
  counts_in_capacity self st →
  ∃ state st',
    get_state self st = Ok (state, st') ∧
    (State.num_nodes st' = State.num_nodes st ∧
     State.num_edges st' = State.num_edges st ∧
     State.num_vars st' = State.num_vars st ∧
     State.num_args st' = State.num_args st ∧
     State.num_tests st' = State.num_tests st ∧
     State.cursor st' = State.cursor st ∧
     State.assignment st' = State.assignment st ∧
     State.code st' = State.code st) ∧
    (State.permitted_actions st' = State.permitted_actions st ∧
     State.tests st' = State.tests st ∧
     State.zast st' = State.zast st) ∧
    (∀ f, length (buf st' f) = length (buf st f)) ∧
    (∀ f p v, buf st f !! p = Some v →
       buf st' f !! p = Some v ∨ buf st' f !! p = Some (-1)) ∧
    (∀ st'', has_layout (State_fields self) st'' →
       to_list st'' (Obs.nodes state) = State.nodes st'' ∧
       to_list st'' (Obs.starter state) = State.starter st'' ∧
       to_list st'' (Obs.permitted_actions state) =
         State.permitted_actions st'' ∧
       to_list st'' (Obs.vars_in_scope state) = State.vars_in_scope st'' ∧
       to_rows st'' (Obs.edges state) =
         rows 3 (Z.to_nat (max_num_nodes self * 3)) (State.edges st'') ∧
       to_rows st'' (Obs.args_in_scope state) =
         rows 2 (Z.to_nat (max_num_vars self)) (State.args_in_scope st'')) ∧
    ((∀ i, State.num_nodes st ≤ i < max_num_nodes self →
        item st' (Obs.nodes state) i 0 = Some (-1) ∧
        item st' (Obs.starter state) i 0 = Some (-1)) ∧
     (∀ i, State.num_edges st ≤ i < 3 * max_num_nodes self →
        item st' (Obs.edges state) i 0 = Some (-1)) ∧
     (∀ i, State.num_vars st ≤ i < max_num_vars self →
        item st' (Obs.vars_in_scope state) i 0 = Some (-1)) ∧
     (∀ i, State.num_args st ≤ i < max_num_vars self →
        item st' (Obs.args_in_scope state) i 0 = Some (-1))) ∧
    ((∀ i j, 0 ≤ i < State.num_nodes st →
        item st' (Obs.nodes state) i j = item st (Obs.nodes state) i j ∧
        item st' (Obs.starter state) i j = item st (Obs.starter state) i j) ∧
     (∀ i j, 0 ≤ i < State.num_edges st →
        item st' (Obs.edges state) i j = item st (Obs.edges state) i j) ∧
     (∀ i j, 0 ≤ i < State.num_vars st →
        item st' (Obs.vars_in_scope state) i j =
        item st (Obs.vars_in_scope state) i j) ∧
     (∀ i j, 0 ≤ i < State.num_args st →
        item st' (Obs.args_in_scope state) i j =
        item st (Obs.args_in_scope state) i j) ∧
     (∀ i,
        item st' (Obs.edges state) i 1 = item st (Obs.edges state) i 1 ∧
        item st' (Obs.edges state) i 2 = item st (Obs.edges state) i 2 ∧
        item st' (Obs.args_in_scope state) i 1 =
          item st (Obs.args_in_scope state) i 1)).
Proof.
  intros Hs HL Hc. exists (state_views st), (padded self st).
  split; [by apply get_state_spec|].
  split; [done|]. split; [done|].
  split; [apply padded_length|].
  destruct (padded_bufs self st) as (Bn & Bs & Be & Bv & Ba & Bp & Bt).
  destruct (state_views_cover self st Hs HL) as (Vn & Vs & Ve & Vv & Va & Vp).
  split; [|split; [|split]].
  - intros f p v Hv.
    destruct f; simpl in Hv;
      rewrite ?Bn, ?Bs, ?Be, ?Bv, ?Ba, ?Bp, ?Bt, ?lookup_pad_buf, ?Hv;
      simpl; try case_bool_decide; auto.
  - intros st2 HL2.
    destruct (schema_lengths self st2 Hs HL2) as (Ln & Ls & Le & Lp & Lv & La).
    unfold to_list, to_rows. simpl in *.
    repeat split; try (apply take_ge; lia); f_equal; lia.
  - destruct (schema_lengths self st Hs HL) as (Ln & Ls & Le & _ & Lv & La).
    destruct Hc as (Hn & He & Hv & Ha).
    repeat split; intros.
    + eapply (item_pad_marker st); [exact Bn|simpl; lia..].
    + eapply (item_pad_marker st); [exact Bs|simpl; lia..].
    + eapply (item_pad_marker st); [exact Be|simpl in *; lia..].
    + eapply (item_pad_marker st); [exact Bv|simpl; lia..].
    + eapply (item_pad_marker st); [exact Ba|simpl in *; lia..].
  - destruct Hc as (Hn & He & Hv & Ha).
    split; [|split; [|split; [|split]]].
    + intros i j Hi. split.
      * eapply (item_pad_below st); [exact Bn|lia..].
      * eapply (item_pad_below st); [exact Bs|lia..].
    + intros i j Hi. eapply (item_pad_below st); [exact Be|lia..].
    + intros i j Hi. eapply (item_pad_below st); [exact Bv|lia..].
    + intros i j Hi. eapply (item_pad_below st); [exact Ba|lia..].
    + intros i. unfold item, offset.
      cbn [state_views Obs.edges Obs.args_in_scope base width len].
      assert (norm_index 3 1 = Some 1%nat) as -> by done.
      assert (norm_index 3 2 = Some 2%nat) as -> by done.
      assert (norm_index 2 1 = Some 1%nat) as -> by done.
      rewrite Be, Ba.
      repeat split; destruct (norm_index _ i) as [k|]; try done;
        apply lookup_pad_buf_other;
        rewrite Nat.add_comm, Nat.mul_comm, Nat.Div0.mod_add; done.
Qed.

End PaddingTheorems.

(** *** The padding results on the demonstration state *)

Lemma demo_schema : schema demo_env.
Proof. by repeat split. Qed.

Lemma demo_layout : has_layout (State_fields demo_env) demo_state.
Proof. split; [by intros []|done]. Qed.

Lemma demo_counts : counts_in_capacity demo_env demo_state.
Proof. unfold counts_in_capacity. simpl. lia. Qed.

Lemma demo_I1 : I1 demo_env demo_state.
Proof.
  split; [apply demo_counts|].
  repeat split; intros i v Hi Hv; simpl in Hi;
    (destruct i as [|[|[|]]]; [..|lia]); simpl in Hv; simplify_eq; lia.
Qed.

Lemma demo_state_dict :
  state_dict demo_state = Ok (state_views demo_state, demo_state).
Proof. reflexivity. Qed.

Lemma pad_states_sentinels_witness :
  ∃ st', pad_states demo_env (state_views demo_state) demo_state =
         Ok (state_views demo_state, st') ∧
         item st' (Obs.nodes (state_views demo_state)) 2 0 = Some (-1).
Proof.
  destruct (pad_states_sentinels demo_env demo_state (state_views demo_state)
              demo_schema demo_layout demo_counts demo_state_dict)
    as (st' & Hp & Hn & _).
  exists st'. split; [exact Hp|]. apply Hn. simpl. lia.
Defined.

Lemma pad_states_idempotent_witness :
  ∃ state st',
    get_state demo_env demo_state = Ok (state, st') ∧
    pad_states demo_env state st' = Ok (state, st').
Proof.
  exact (pad_states_idempotent demo_env demo_state
           demo_schema demo_layout demo_counts).
Defined.

Lemma unpad_pad_roundtrip_witness :
  ∃ padded_obs st' state,
    get_state demo_env demo_state = Ok (padded_obs, st') ∧
    unpad_states demo_env padded_obs st' = Ok (state, st') ∧
    to_list st' (Obs.nodes state) = [5; 6] ∧
    to_rows st' (Obs.edges state) = [[1; 2; 3]].
Proof.
  destruct (unpad_pad_roundtrip demo_env demo_state
              demo_schema demo_layout demo_I1)
    as (o & st' & state & Hg & Hu & Hn & _ & He & _).
  exists o, st', state.
  split; [exact Hg|]. split; [exact Hu|]. split; [exact Hn|exact He].
Defined.

Lemma get_state_frame_witness :
  ∃ state st',
    get_state demo_env demo_state = Ok (state, st') ∧
    State.num_nodes st' = 2 ∧
    to_list (set_buf st' Nodes [9; 9; 9]) (Obs.nodes state) = [9; 9; 9] ∧
    item st' (Obs.nodes state) 2 0 = Some (-1) ∧
    item st' (Obs.nodes state) 1 0 = item demo_state (Obs.nodes state) 1 0.
Proof.
  destruct (get_state_frame demo_env demo_state
              demo_schema demo_layout demo_counts)
    as (state & st' & Hg & (Hn & _) & (_ & _ & Hz) & Hlen & _ & Halias &
        (Hsent & _) & (Hlive & _)).
  exists state, st'. split; [exact Hg|]. split; [exact Hn|].
  split; [|split].
  - apply (Halias (set_buf st' Nodes [9; 9; 9])).
    split.
    + intros f. rewrite buf_set_buf. case_decide as Hf.
      * subst f. reflexivity.
      * rewrite Hlen. destruct f; reflexivity.
    + change (State.zast (set_buf st' Nodes [9; 9; 9])) with (State.zast st').
      rewrite Hz. reflexivity.
  - apply Hsent. simpl. lia.
  - apply Hlive. simpl. lia.
Defined.

Lemma demo_no_sentinel :
  no_sentinel demo_state (Obs.nodes (state_views demo_state))
    (max_num_nodes demo_env).
Proof.
  intros k Hk. simpl in Hk.
  assert (k = 0 ∨ k = 1 ∨ k = 2) as [->|[->| ->]] by lia; by vm_compute.
Qed.

Lemma unpad_states_full_capacity_witness :
  ∃ state',
    unpad_states demo_env (state_views demo_state) demo_state =
      Ok (state', demo_state) ∧
    Obs.nodes state' = Obs.nodes (state_views demo_state) ∧
    to_list demo_state (Obs.nodes state') = [5; 6; 7].
Proof.
  destruct (unpad_states_full_capacity demo_env demo_state
              (state_views demo_state) demo_schema demo_layout demo_state_dict)
    as [(state' & Hu & Hn & _) _].
  exists state'. split; [exact Hu|].
  destruct (Hn demo_no_sentinel) as (H1 & _ & H3).
  split; [exact H1|exact H3].
Defined.

Lemma unpad_states_starter_follows_nodes_witness :
  ∃ state',
    unpad_states demo_env (state_views demo_state) demo_state =
      Ok (state', demo_state) ∧
    unpad_states demo_env (state_views demo_state)
      (set_buf demo_state Starter [-1; -1; -1]) =
      Ok (state', set_buf demo_state Starter [-1; -1; -1]) ∧
    Obs.starter state' = Obs.starter (state_views demo_state).
Proof.
  destruct (unpad_states_starter_follows_nodes demo_env demo_state
              (state_views demo_state) demo_schema demo_layout demo_state_dict)
    as (state' & Hu & _ & Hany & Hfull).
  exists state'. split; [exact Hu|]. split; [exact (Hany [-1; -1; -1])|].
  exact (proj1 (Hfull demo_no_sentinel)).
Defined.

(** C3 fails as stated: on the demonstration state, whose third node is
    not live, [get_state] overwrites that entry of the engine's buffer, and
    what the engine writes afterwards shows in the returned observation. *)
Lemma get_state_overwrites_engine_buffer :
  get_state demo_env demo_state =
    Ok (state_views demo_state, padded demo_env demo_state) ∧
  State.nodes demo_state = [5; 6; 7] ∧
  State.nodes (padded demo_env demo_state) = [5; 6; -1] ∧
  to_list (set_buf (padded demo_env demo_state) Nodes [9; 9; 9])
    (Obs.nodes (state_views demo_state)) = [9; 9; 9].
Proof. by vm_compute. Qed.

(** ** Construction *)

Section Construction.

Context {E : Type}.
Implicit Types (self : ASTEnv E) (st : State.t) (lib : CDLL E).








End Construction.



Lemma demo_env_constructed :
  __init__ demo_lib tt false 3 10 1 [1] 4 "d" 0 2 8 2 0 = Ok demo_env.
Proof. reflexivity. Qed.

(** ** The frame of [get_state], whatever the counts *)

Lemma same_frame_refl st : same_frame st st.
Proof. by repeat split. Qed.

Lemma same_frame_trans st1 st2 st3 :
  same_frame st1 st2 → same_frame st2 st3 → same_frame st1 st3.
Proof.
  intros (L1 & ? & ? & ? & ? & ? & ? & ? & ? & ?)
         (L2 & ? & ? & ? & ? & ? & ? & ? & ? & ?).
  repeat split; first [congruence | intros f; by rewrite L2, L1].
Qed.

Lemma setitem_frame a i j v st st' :
  setitem a i j v st = Ok (tt, st') → same_frame st st'.
Proof.
  unfold setitem. destruct (offset a i j) as [p|]; [|done].
  case_bool_decide; [|done]. intros [= <-].
  repeat split. intros f. rewrite buf_set_buf. case_decide as Hf; [|done].
  subst f. by rewrite length_insert.
Qed.

Lemma for_frame r (body : Z → Eff unit) st st' :
  (∀ i s s', body i s = Ok (tt, s') → same_frame s s') →
  for_ r body st = Ok (tt, st') → same_frame st st'.
Proof.
  intros Hbody. revert st. induction r as [|i r IH]; intros st; simpl.
  - intros [= <-]. apply same_frame_refl.
  - unfold bind. destruct (body i st) as [[[] s]|] eqn:Hb; [|done].
    intros Hr. eapply same_frame_trans; [by eapply Hbody|by apply IH].
Qed.

Lemma same_frame_layout L st st' :
  same_frame st st' → has_layout L st → has_layout L st'.
Proof.
  intros (Hl & Hz & _) [HL HZ]. split.
  - intros f. by rewrite Hl.
  - by rewrite Hz.
Qed.

Section Protocol.

Context {E : Type}.
Implicit Types (self : ASTEnv E) (st : State.t).

#[local] Arguments Nat.div : simpl never.
#[local] Arguments Nat.modulo : simpl never.

Lemma pad_states_inv self (state o : Obs.t) st st' :
  pad_states self state st = Ok (o, st') → o = state ∧ same_frame st st'.
Proof.
  unfold pad_states. unfold bind at 1. unfold gets at 1. unfold bind at 1.
  destruct (for_ _ _ st) as [[[] s1]|] eqn:H1; [|done].
  unfold bind at 1. unfold gets at 1. unfold bind at 1.
  destruct (for_ _ _ s1) as [[[] s2]|] eqn:H2; [|done].
  unfold bind at 1. unfold gets at 1. unfold bind at 1.
  destruct (for_ _ _ s2) as [[[] s3]|] eqn:H3; [|done].
  unfold bind at 1. unfold gets at 1. unfold bind at 1.
  destruct (for_ _ _ s3) as [[[] s4]|] eqn:H4; [|done].
  intros [= <- <-]. split; [done|].
  apply for_frame in H1, H2, H3, H4.
  - eauto using same_frame_trans.
  - intros ???. apply setitem_frame.
  - intros ???. apply setitem_frame.
  - intros ???. apply setitem_frame.
  - intros i s s'. unfold bind.
    destruct (setitem _ i 0 (-1) s) as [[[] s0]|] eqn:Ha; [|done].
    intros Hb. eapply same_frame_trans; by eapply setitem_frame.
Qed.

Lemma state_dict_inv (o : Obs.t) st st' :
  state_dict st = Ok (o, st') → o = state_views st ∧ st' = st.
Proof.
  unfold state_dict, bind, as_array, lift, gets, ret, reshape.
  cbn [len width base]. repeat case_bool_decide; try done.
  by intros [= <- <-].
Qed.

Lemma get_state_inv self (o : Obs.t) st st' :
  get_state self st = Ok (o, st') → o = state_views st ∧ same_frame st st'.
Proof.
  unfold get_state. unfold bind at 1.
  destruct (state_dict st) as [[d s]|] eqn:Hd; [|done].
  apply state_dict_inv in Hd as [-> ->]. apply pad_states_inv.
Qed.

Lemma State_new_layout (L : Layout) : has_layout L (State_new L).
Proof. split; [intros []|]; simpl; by rewrite length_replicate. Qed.

Lemma reset_run_inv self ds r :
  run (reset self) ds = Some (Ok r) →
  ∃ a c, ds = [a; c] ∧ reset_load self a c = Ok r.
Proof.
  unfold reset, sample, randint. case_bool_decide; [by destruct ds|].
  destruct ds as [|a ds]; [done|]. simpl. case_bool_decide; [|done].
  destruct (norm_index _ a) as [k|]; [|by destruct ds].
  destruct (code_per_assignment self !! k) as [codes|]; [|by destruct ds].
  case_bool_decide; [by destruct ds|].
  destruct ds as [|c ds]; [done|]. simpl. case_bool_decide; [|done].
  destruct ds; [|done]. simpl. intros [= Hr]. by exists a, c.
Qed.

(** C5.  In a Ready state, [step] returns the observation, the reward, the
    flag [done] and an empty [info]; the reward is 0 or 1 when the engine's
    check returns 0 or 1, and [done] holds exactly when the reward is 1. *)
Theorem step_contract self st action :
  schema self → engine_ok self →
  state self = Some st → ready self st →
  (∀ s e, (check_ast (astclib self) s e).1.1 = 0 ∨
          (check_ast (astclib self) s e).1.1 = 1) →
  ∃ (state : Obs.t) reward (done : bool) self',
    step self action = Ok (state, reward, done, [], self') ∧
    (reward = 0 ∨ reward = 1) ∧
    (done = true ↔ reward = 1).
Proof.
  intros Hs (Ht & Hc & _) Hst Hr Hcheck. unfold step. rewrite Hst.
  specialize (Ht st (c_int action) (engine self) Hr).
  destruct (take_action _ st _ _) as [s1 e1]. simpl in Ht.
  specialize (Hc s1 e1 Ht). specialize (Hcheck s1 e1).
  destruct (check_ast _ s1 e1) as [[reward s2] e2]. simpl in Hc, Hcheck.
  destruct Hc as [HL Hcnt].
  rewrite get_state_spec by done.
  eexists _, _, _, _. split; [done|]. split; [done|].
  apply bool_decide_eq_true.
Qed.

(** C6.  Along any sequence of [reset] and [step] calls, every returned
    observation has a [permitted_actions] of length
    [num_actions + 2 * max_num_vars]: the length that [State._fields_]
    declares, which no call changes. *)
Theorem permitted_actions_shape (self0 self : ASTEnv E) (obss : list Obs.t) :
  schema self0 →
  keeps_layout (astclib self0) (State_fields self0) →
  match state self0 with
  | Some st => has_layout (State_fields self0) st
  | None => True
  end →
  reachable self0 self obss →
  Forall (λ state : Obs.t,
            len (Obs.permitted_actions state) =
            Z.to_nat (num_actions self0 + 2 * max_num_vars self0)) obss.
Proof.
  intros Hs (Kt & Kc & Ki) H0 Hreach.
  assert (∀ st (o : Obs.t) st',
            has_layout (State_fields self0) st →
            get_state self0 st = Ok (o, st') →
            len (Obs.permitted_actions o) =
              Z.to_nat (num_actions self0 + 2 * max_num_vars self0) ∧
            has_layout (State_fields self0) st') as Hget.
  { intros st o st' HL Hg. apply get_state_inv in Hg as [-> Hf].
    split; [|by eapply same_frame_layout].
    destruct (schema_lengths self0 st Hs HL) as (_ & _ & _ & Lp & _).
    simpl. rewrite Lp. f_equal. lia. }
  enough (Forall (λ state : Obs.t,
            len (Obs.permitted_actions state) =
            Z.to_nat (num_actions self0 + 2 * max_num_vars self0)) obss ∧
          ∃ o e, self = with_state self0 o e ∧
                 match o with
                 | Some st => has_layout (State_fields self0) st
                 | None => True
                 end) as [? _]; [done|].
  induction Hreach as
    [|self obss ds obs self' _ IH Hrun
     |self obss action obs reward done info self' _ IH Hstep].
  - split; [constructor|].
    exists (state self0), (engine self0). split; [by destruct self0|done].
  - destruct IH as (Hall & o & e & -> & Ho).
    apply reset_run_inv in Hrun as (a & c & _ & Hload).
    unfold reset_load in Hload. cbn [with_state State_fields astclib
      assignment_dir perturbation engine] in Hload.
    pose proof (Ki (State_new (State_fields self0)) (assignment_dir self0)
                  (c_int a) (c_int c) (c_int (perturbation self0)) e
                  (State_new_layout _)) as HL1.
    destruct (init_assignment _ _ _ _ _ _ _) as [s1 e1]. simpl in HL1.
    change (get_state (with_state self0 o e) s1) with (get_state self0 s1)
      in Hload.
    destruct (get_state self0 s1) as [[o2 s2]|] eqn:Hg; [|done].
    injection Hload as <- <-.
    destruct (Hget _ _ _ HL1 Hg) as [Hlen HL2].
    split; [by constructor|]. by exists (Some s2), e1.
  - destruct IH as (Hall & o & e & -> & Ho).
    unfold step in Hstep. cbn [with_state state astclib engine] in Hstep.
    destruct o as [st|]; [|done].
    pose proof (Kt st (c_int action) e Ho) as HL1.
    destruct (take_action _ st _ _) as [s1 e1]. simpl in HL1.
    pose proof (Kc s1 e1 HL1) as HL2.
    destruct (check_ast _ s1 e1) as [[r s2] e2]. simpl in HL2.
    change (get_state (with_state self0 (Some st) e) s2)
      with (get_state self0 s2) in Hstep.
    destruct (get_state self0 s2) as [[o3 s3]|] eqn:Hg; [|done].
    injection Hstep as <- _ _ _ <-.
    destruct (Hget _ _ _ HL2 Hg) as [Hlen HL3].
    split; [by constructor|]. by exists (Some s3), e2.
Qed.

End Protocol.

Section Reset.

Context {E : Type}.
Implicit Types (self : ASTEnv E) (st : State.t).

Lemma State_new_ready self :
  0 ≤ max_num_nodes self → 0 ≤ max_num_vars self →
  ready self (State_new (State_fields self)).
Proof.
  intros. split; [apply State_new_layout|].
  unfold counts_in_capacity. simpl. lia.
Qed.

(** The draws of [reset] in a well-configured environment. *)
Lemma reset_draws self a codes :
  let num_assignments := n (ObservationSpace.assignment (observation_space self)) in
  0 ≤ a < num_assignments →
  code_per_assignment self !! Z.to_nat a = Some codes → 0 < codes →
  ∃ k, reset self = Draw 0 (num_assignments - 1) k ∧
       k a = Draw 0 (codes - 1) (λ c, Done (reset_load self a c)).
Proof.
  intros na Ha Hcodes Hpos. unfold reset, sample, randint.
  rewrite bool_decide_eq_false_2 by (fold na; lia).
  eexists. split; [done|]. simpl.
  rewrite norm_index_nonneg
    by (apply lookup_lt_Some in Hcodes; lia).
  rewrite Hcodes. by rewrite bool_decide_eq_false_2 by lia.
Qed.

(** C8.  In a well-configured environment [reset] draws the assignment
    uniformly from [0 .. num_assignments - 1] and then the code uniformly
    from [0 .. code_per_assignment[assignment] - 1]; no other draws occur.
    With these it allocates a fresh zero-filled structure, has the engine
    load the assignment into it with the configured directory and
    perturbation, and returns the padded observation of what was loaded. *)
Theorem reset_contract self :
  schema self → engine_ok self →
  0 ≤ max_num_nodes self → 0 ≤ max_num_vars self →
  well_configured self →
  let num_assignments := n (ObservationSpace.assignment (observation_space self)) in
  (∀ ds, ¬ (prob (reset self) ds == 0)%Q →
     ∃ a c codes,
       ds = [a; c] ∧ 0 ≤ a < num_assignments ∧
       code_per_assignment self !! Z.to_nat a = Some codes ∧ 0 ≤ c < codes) ∧
  (∀ a c codes,
     0 ≤ a < num_assignments →
     code_per_assignment self !! Z.to_nat a = Some codes → 0 ≤ c < codes →
     (prob (reset self) [a; c] ==
        (1 # Z.to_pos num_assignments) * (1 # Z.to_pos codes))%Q ∧
     ∃ (state : Obs.t) st',
       let loaded :=
         init_assignment (astclib self) (State_new (State_fields self))
           (assignment_dir self) (c_int a) (c_int c)
           (c_int (perturbation self)) (engine self) in
       get_state self loaded.1 = Ok (state, st') ∧
       run (reset self) [a; c] =
         Some (Ok (state, with_state self (Some st') loaded.2))).
Proof.
  intros Hs (_ & _ & Hi) HN HV [Hn Hcfg] na. split.
  - intros ds Hp.
    destruct ds as [|a ds].
    { exfalso. apply Hp. destruct (Hcfg 0) as (codes & Hc & Hpos); [lia|].
      destruct (reset_draws self 0 codes) as (k & -> & _);
        [lia|exact Hc|exact Hpos|]. reflexivity. }
    destruct (decide (0 ≤ a < na)) as [Ha|Ha]; cycle 1.
    { exfalso. apply Hp. destruct (Hcfg 0) as (codes & Hc & Hpos); [lia|].
      destruct (reset_draws self 0 codes) as (k & -> & _);
        [lia|exact Hc|exact Hpos|].
      simpl. rewrite bool_decide_eq_false_2; [reflexivity|]. fold na. lia. }
    destruct (Hcfg a Ha) as (codes & Hc & Hpos).
    destruct (reset_draws self a codes Ha Hc Hpos) as (k & Hr & Hk).
    rewrite Hr in Hp. simpl in Hp. fold na in Hr, Hp.
    rewrite bool_decide_eq_true_2 in Hp by lia. rewrite Hk in Hp.
    destruct ds as [|c ds].
    { exfalso. apply Hp. simpl. ring. }
    simpl in Hp. destruct (decide (0 ≤ c ≤ codes - 1)) as [Hcr|Hcr]; cycle 1.
    { exfalso. apply Hp. rewrite bool_decide_eq_false_2 by done. ring. }
    destruct ds as [|d ds]; [|exfalso; apply Hp].
    + exists a, c, codes. repeat split; (done || lia).
    + rewrite bool_decide_eq_true_2 by done. ring.
  - intros a c codes Ha Hc Hcr.
    destruct (reset_draws self a codes Ha Hc) as (k & Hr & Hk); [lia|].
    rewrite Hr. simpl. fold na.
    rewrite bool_decide_eq_true_2 by lia. rewrite Hk. simpl.
    rewrite bool_decide_eq_true_2 by lia. split.
    + replace (na - 1 - 0 + 1) with na by lia.
      replace (codes - 1 - 0 + 1) with codes by lia. ring.
    + unfold reset_load.
      pose proof (Hi (State_new (State_fields self)) (assignment_dir self)
                    (c_int a) (c_int c) (c_int (perturbation self))
                    (engine self) (State_new_ready self HN HV)) as [HL Hcnt].
      destruct (init_assignment _ _ _ _ _ _ _) as [s1 e1]. simpl in *.
      rewrite get_state_spec by done. by eexists _, _.
Qed.

End Reset.

(** *** The protocol on the demonstration engine *)

Lemma demo_engine_ok : engine_ok demo_env.
Proof.
  split; [|split].
  - intros st a e [[HL HZ] Hc]. split; [by split|done].
  - intros st e Hr. exact Hr.
  - intros st d a c p e [[HL HZ] Hc]. split; [by split|].
    unfold counts_in_capacity. simpl. lia.
Qed.

Lemma demo_keeps_layout : keeps_layout demo_lib (State_fields demo_env).
Proof.
  split; [|split].
  - intros st a e [HL HZ]. by split.
  - intros st e HL. exact HL.
  - intros st d a c p e [HL HZ]. by split.
Qed.

Lemma demo_well_configured : well_configured demo_env.
Proof.
  split; [simpl; lia|]. intros a Ha. simpl in Ha.
  assert (a = 0) as -> by lia. exists 1. by split.
Qed.

Lemma demo_check_binary s e :
  (check_ast demo_lib s e).1.1 = 0 ∨ (check_ast demo_lib s e).1.1 = 1.
Proof. simpl. case_bool_decide; auto. Qed.

Lemma step_contract_witness :
  ∃ (state : Obs.t) reward (done : bool) self',
    step demo_ready 1 = Ok (state, reward, done, [], self') ∧
    (reward = 0 ∨ reward = 1) ∧ (done = true ↔ reward = 1).
Proof.
  apply (step_contract demo_ready demo_state 1).
  - exact demo_schema.
  - exact demo_engine_ok.
  - reflexivity.
  - split; [exact demo_layout|exact demo_counts].
  - exact demo_check_binary.
Defined.

Lemma demo_episode :
  ∃ self obss, reachable demo_env self obss ∧ length obss = 2%nat.
Proof.
  eexists _, _. split.
  - eapply (reach_step demo_env _ _ 1).
    + eapply (reach_reset demo_env _ _ [0; 0]); [apply reach_start|].
      vm_compute. reflexivity.
    + vm_compute. reflexivity.
  - reflexivity.
Qed.

Lemma permitted_actions_shape_witness :
  ∃ self obss,
    reachable demo_env self obss ∧ length obss = 2%nat ∧
    Forall (λ state : Obs.t, len (Obs.permitted_actions state) = 8%nat) obss.
Proof.
  destruct demo_episode as (self & obss & Hreach & Hlen).
  exists self, obss. split; [exact Hreach|]. split; [exact Hlen|].
  exact (permitted_actions_shape demo_env self obss
           demo_schema demo_keeps_layout I Hreach).
Defined.

Lemma reset_contract_witness :
  (prob (reset demo_env) [0; 0]%Z == (1 # 1) * (1 # 1))%Q ∧
  ∃ (state : Obs.t) st',
    run (reset demo_env) [0; 0] =
      Some (Ok (state, with_state demo_env (Some st') tt)).
Proof.
  destruct (reset_contract demo_env demo_schema demo_engine_ok)
    as [_ Hdraw]; [simpl; lia..|exact demo_well_configured|].
  destruct (Hdraw 0 0 1) as (Hp & state & st' & _ & Hrun);
    [simpl; lia|reflexivity|lia|].
  split; [exact Hp|]. exists state, st'. exact Hrun.
Defined.

(** ** Counts outside the capacities *)

Section CountsOutside.

Context {E : Type}.
Implicit Types (self : ASTEnv E) (st : State.t).

#[local] Arguments Nat.div : simpl never.
#[local] Arguments Nat.modulo : simpl never.

(** X1.  Counts at or above the capacities, also beyond them, are not
    detected: [get_state] pads nothing, raises nothing and returns the views
    of the untouched structure. *)
Theorem get_state_overflow_unpadded self st :
  schema self → has_layout (State_fields self) st →
  max_num_nodes self ≤ State.num_nodes st →
  max_num_nodes self * 3 ≤ State.num_edges st →
  max_num_vars self ≤ State.num_vars st →
  max_num_vars self ≤ State.num_args st →
  get_state self st = Ok (state_views st, st).
Proof.
  intros Hs HL Hn He Hv Ha. unfold get_state. unfold bind at 1.
  rewrite (state_dict_ready self) by done.
  unfold pad_states, bind, gets.
  do 4 (rewrite range_nil by lia; cbn [for_ ret]). reflexivity.
Qed.

(** X2.  A node count below [-max_num_nodes] makes the first write of the
    padding loop fall outside the array: [get_state] raises [IndexError]. *)
Theorem get_state_count_below_raises self st :
  schema self → has_layout (State_fields self) st →
  0 ≤ max_num_nodes self →
  State.num_nodes st < - max_num_nodes self →
  get_state self st = Raise IndexError.
Proof.
  intros Hs HL HN Hn. unfold get_state. unfold bind at 1.
  rewrite (state_dict_ready self) by done.
  destruct (schema_lengths self st Hs HL) as (Ln & _).
  unfold pad_states. unfold bind at 1. unfold gets at 1. unfold bind at 1.
  rewrite range_cons by lia. cbn [for_]. unfold bind at 1. unfold bind at 1.
  unfold setitem at 1, offset, norm_index. cbn [state_views Obs.nodes len].
  rewrite Ln. by rewrite !bool_decide_eq_false_2 by lia.
Qed.


Lemma for_app r1 r2 (body : Z → Eff unit) st :
  for_ (r1 ++ r2)%list body st = (for_ r1 body ;;; for_ r2 body) st.
Proof.
  revert st. induction r1 as [|i r1 IH]; intros st; simpl; [done|].
  unfold bind. destruct (body i st) as [[[] s]|]; [|done].
  rewrite IH. done.
Qed.

Lemma range_split lo mid hi :
  lo ≤ mid ≤ hi → range lo hi = (range lo mid ++ range mid hi)%list.
Proof.
  intros. unfold range.
  replace (hi - lo) with ((mid - lo) + (hi - mid)) by lia.
  rewrite seqZ_app by lia. do 2 f_equal; lia.
Qed.

Lemma setitem_from_end (a : ndarray) i v st :
  (0 < width a)%nat → - Z.of_nat (len a) ≤ i < 0 →
  (width a * len a ≤ length (buf st (base a)))%nat →
  setitem a i 0 v st =
  Ok (tt, set_buf st (base a)
            (<[(width a * Z.to_nat (i + Z.of_nat (len a)))%nat := v]>
               (buf st (base a)))).
Proof.
  intros Hw Hi Hl. unfold setitem, offset, norm_index.
  rewrite (bool_decide_eq_false_2 (0 ≤ i < _)) by lia.
  rewrite (bool_decide_eq_true_2 (- _ ≤ i < 0)) by lia.
  rewrite (bool_decide_eq_true_2 (0 ≤ 0 < _)) by lia.
  rewrite Nat.add_0_r. rewrite bool_decide_eq_true_2; [done|]. nia.
Qed.

(** The part of the first padding loop that runs on negative indices. *)
Lemma for_setitem2_from_end (a b : ndarray) c st :
  base a ≠ base b → (0 < width a)%nat → (0 < width b)%nat →
  - Z.of_nat (len a) ≤ c ≤ 0 → - Z.of_nat (len b) ≤ c →
  (width a * len a ≤ length (buf st (base a)))%nat →
  (width b * len b ≤ length (buf st (base b)))%nat →
  ∃ la lb,
    for_ (range c 0) (λ i, setitem a i 0 (-1) ;;; setitem b i 0 (-1)) st =
      Ok (tt, set_buf (set_buf st (base a) la) (base b) lb) ∧
    length la = length (buf st (base a)) ∧
    length lb = length (buf st (base b)).
Proof.
  intros Hab Hwa Hwb Hca Hcb.
  remember (Z.to_nat (0 - c)) as k eqn:Hk.
  revert c st Hca Hcb Hk. induction k as [|k IH]; intros c st Hca Hcb Hk Hla Hlb.
  - exists (buf st (base a)), (buf st (base b)).
    rewrite range_nil by lia. by rewrite !set_buf_id.
  - rewrite range_cons by lia. simpl. unfold bind at 1. unfold bind at 1.
    rewrite setitem_from_end by (done || lia).
    rewrite setitem_from_end
      by (rewrite ?buf_set_buf_ne by done; done || lia).
    rewrite (buf_set_buf_ne _ _ _ (base b)) by done.
    edestruct (IH (c + 1)) as (la & lb & Hfor & Hlena & Hlenb);
      [lia|lia|lia| | |rewrite Hfor].
    + rewrite buf_set_buf_ne by done.
      rewrite buf_set_buf_eq, length_insert. done.
    + rewrite buf_set_buf_eq, length_insert. done.
    + exists la, lb. split.
      * rewrite (set_buf_comm (set_buf st (base a) _) (base b) (base a))
          by done.
        by rewrite !set_buf_set_buf.
      * rewrite buf_set_buf_ne, buf_set_buf_eq, length_insert in Hlena
          by done.
        rewrite buf_set_buf_eq, length_insert in Hlenb. done.
Qed.

Lemma pad_buf_all cap l :
  Z.of_nat (length l) ≤ cap → pad_buf 1 0 cap l = replicate (length l) (-1).
Proof.
  intros Hl. apply list_eq; intros p. rewrite lookup_pad_buf.
  destruct (decide (p < length l)%nat) as [Hp|Hp].
  - rewrite lookup_replicate_2 by done.
    destruct (lookup_lt_is_Some_2 l p Hp) as [v ->]. simpl.
    rewrite bool_decide_eq_true_2; [done|].
    rewrite Nat.mod_1_r, Nat.div_1_r. lia.
  - rewrite lookup_ge_None_2 by lia.
    symmetry. apply lookup_replicate_None. lia.
Qed.

(** X3.  A node count in [-max_num_nodes, 0) raises nothing: Python takes
    the negative indices from the end, the loop then runs over the whole
    array, and [nodes] and [starter] come out filled with sentinels. *)
Theorem get_state_negative_count_wraps self st :
  schema self → has_layout (State_fields self) st →
  - max_num_nodes self ≤ State.num_nodes st < 0 →
  0 ≤ State.num_edges st ≤ 3 * max_num_nodes self →
  0 ≤ State.num_vars st ≤ max_num_vars self →
  0 ≤ State.num_args st ≤ max_num_vars self →
  ∃ st',
    get_state self st = Ok (state_views st, st') ∧
    State.nodes st' = replicate (Z.to_nat (max_num_nodes self)) (-1) ∧
    State.starter st' = replicate (Z.to_nat (max_num_nodes self)) (-1).
Proof.
  intros Hs HL Hn He Hv Ha.
  destruct (schema_lengths self st Hs HL) as (Ln & Ls & Le & _ & Lv & La).
  assert (length (State.edges st) * 1 / 3 =
          Z.to_nat (max_num_nodes self * 3))%nat as Le'
    by (rewrite Le, Nat.mul_1_r, Nat.div_mul; lia).
  assert (length (State.args_in_scope st) * 1 / 2 =
          Z.to_nat (max_num_vars self))%nat as La'
    by (rewrite La, Nat.mul_1_r, Nat.div_mul; lia).
  unfold get_state. unfold bind at 1.
  rewrite (state_dict_ready self) by done.
  unfold pad_states. unfold bind at 1. unfold gets at 1. unfold bind at 1.
  rewrite (range_split _ 0) by lia. rewrite for_app. unfold bind at 1.
  destruct (for_setitem2_from_end (Obs.nodes (state_views st))
              (Obs.starter (state_views st)) (State.num_nodes st) st)
    as (la & lb & -> & Hla & Hlb); simpl; try done; try lia.
  simpl in Hla, Hlb.
  rewrite for_setitem2; simpl; try done; try lia.
  unfold bind at 1. unfold gets at 1. unfold bind at 1.
  rewrite for_setitem; simpl; try done; try lia.
  unfold bind at 1. unfold gets at 1. unfold bind at 1.
  rewrite for_setitem; simpl; try done; try lia.
  unfold bind at 1. unfold gets at 1. unfold bind at 1.
  rewrite for_setitem; simpl; try done; try lia.
  eexists. split; [done|]. simpl.
  rewrite !pad_buf_all by lia. rewrite Hla, Hlb, Ln, Ls. done.
Qed.

End CountsOutside.

(** ** More on padding and unpadding *)

Section PaddingMore.

Context {E : Type}.
Implicit Types (self : ASTEnv E) (st : State.t).

#[local] Arguments Nat.div : simpl never.
#[local] Arguments Nat.modulo : simpl never.

(** X4.  Padding writes the first component of a row only: whatever the
    row, [edges[i][1]], [edges[i][2]] and [args_in_scope[i][1]] read after
    [get_state] as they did before. *)
Theorem get_state_keeps_other_columns self st :
  schema self → has_layout (State_fields self) st →
  counts_in_capacity self st →
  ∃ (state : Obs.t) st',
    get_state self st = Ok (state, st') ∧
    ∀ i,
      item st' (Obs.edges state) i 1 = item st (Obs.edges state) i 1 ∧
      item st' (Obs.edges state) i 2 = item st (Obs.edges state) i 2 ∧
      item st' (Obs.args_in_scope state) i 1 =
        item st (Obs.args_in_scope state) i 1.
Proof.
  intros Hs HL Hc. exists (state_views st), (padded self st).
  split; [by apply get_state_spec|]. intros i.
  destruct (padded_bufs self st) as (_ & _ & Be & _ & Ba & _).
  unfold item, offset. cbn [state_views Obs.edges Obs.args_in_scope
    base width len].
  assert (norm_index 3 1 = Some 1%nat) as -> by done.
  assert (norm_index 3 2 = Some 2%nat) as -> by done.
  assert (norm_index 2 1 = Some 1%nat) as -> by done.
  rewrite Be, Ba.
  repeat split; destruct (norm_index _ i) as [k|]; try done;
    apply lookup_pad_buf_other.
  - rewrite Nat.add_comm, Nat.mul_comm, Nat.Div0.mod_add. done.
  - rewrite Nat.add_comm, Nat.mul_comm, Nat.Div0.mod_add. done.
  - rewrite Nat.add_comm, Nat.mul_comm, Nat.Div0.mod_add. done.
Qed.

(** X5.  Whatever the counts, when [get_state] returns it returns the
    views of the whole buffers and has changed no length, no count and no
    other scalar of the structure, nor [zast]. *)
Theorem get_state_frame_any_counts self (state : Obs.t) st st' :
  get_state self st = Ok (state, st') →
  state = state_views st ∧ same_frame st st'.
Proof. apply get_state_inv. Qed.

Lemma find_sentinel_reads_only (a : ndarray) r st x st' :
  find_sentinel a r st = Ok (x, st') → st' = st.
Proof.
  revert st. induction r as [|i r IH]; intros st; simpl.
  - by intros [= _ <-].
  - unfold bind, getitem. destruct (item st a i 0) as [v|]; [|done].
    case_bool_decide; [by intros [= _ <-]|apply IH].
Qed.

Lemma shorter_refl (a : ndarray) : shorter a a.
Proof. by repeat split. Qed.

Lemma shorter_cut r (a : ndarray) : shorter (cut r a) a.
Proof.
  destruct r as [i|]; [|apply shorter_refl].
  repeat split. simpl. case_bool_decide; lia.
Qed.

(** X6.  [unpad_states] only reads: on any observation, when it returns,
    the memory is as it was, [permitted_actions], [cursor_position] and
    [assignment] are passed on, and every other array is a view of the same
    memory that is not longer; [nodes] and [starter] are cut at the same
    index. *)
Theorem unpad_states_reads_only self (state state' : Obs.t) st st' :
  unpad_states self state st = Ok (state', st') →
  st' = st ∧
  Obs.permitted_actions state' = Obs.permitted_actions state ∧
  Obs.cursor_position state' = Obs.cursor_position state ∧
  Obs.assignment state' = Obs.assignment state ∧
  shorter (Obs.edges state') (Obs.edges state) ∧
  shorter (Obs.vars_in_scope state') (Obs.vars_in_scope state) ∧
  shorter (Obs.args_in_scope state') (Obs.args_in_scope state) ∧
  ∃ r, Obs.nodes state' = cut r (Obs.nodes state) ∧
       Obs.starter state' = cut r (Obs.starter state).
Proof.
  unfold unpad_states. destruct state as [nd ed sr pa cp vs ar asg].
  unfold bind at 1.
  destruct (find_sentinel _ _ st) as [[r1 s1]|] eqn:E1; [|done].
  apply find_sentinel_reads_only in E1 as ->.
  unfold bind at 1.
  destruct (find_sentinel _ _ st) as [[r2 s2]|] eqn:E2; [|done].
  apply find_sentinel_reads_only in E2 as ->.
  unfold bind at 1.
  destruct (find_sentinel _ _ st) as [[r3 s3]|] eqn:E3; [|done].
  apply find_sentinel_reads_only in E3 as ->.
  unfold bind at 1.
  destruct (find_sentinel _ _ st) as [[r4 s4]|] eqn:E4; [|done].
  apply find_sentinel_reads_only in E4 as ->.
  intros [= <- <-]. split; [done|].
  match goal with
  | |- context [Obs.permitted_actions ?o] =>
      replace o with
        (Obs.mk (cut r1 nd) (cut r2 ed) (cut r1 sr) pa cp (cut r3 vs)
           (cut r4 ar) asg)
        by (by destruct r1, r2, r3, r4)
  end.
  cbn [Obs.nodes Obs.edges Obs.starter Obs.permitted_actions
    Obs.cursor_position Obs.vars_in_scope Obs.args_in_scope Obs.assignment].
  repeat (split; [done || apply shorter_cut|]). by exists r1.
Qed.


Lemma find_sentinel_raises (a : ndarray) c i cap st :
  c ≤ i < cap →
  (∀ k, c ≤ k < i → ∃ v, item st a k 0 = Some v ∧ v ≠ -1) →
  item st a i 0 = None →
  find_sentinel a (range c cap) st = Raise IndexError.
Proof.
  remember (Z.to_nat (i - c)) as m eqn:Hm.
  revert c Hm. induction m as [|m IH]; intros c Hm Hi Hbefore Hnone.
  - assert (c = i) as -> by lia.
    rewrite range_cons by lia. simpl. unfold bind, getitem. by rewrite Hnone.
  - rewrite range_cons by lia. simpl. unfold bind, getitem.
    destruct (Hbefore c) as (v & -> & Hv); [lia|].
    rewrite bool_decide_eq_false_2 by done.
    apply IH; [lia|lia| |done]. intros k Hk. apply Hbefore. lia.
Qed.

(** X7.  [unpad_states] cannot be applied to its own result: once [nodes]
    has been cut below the capacity, the scan of the second application
    runs past the end of the shorter array and raises [IndexError]. *)
Theorem unpad_states_twice_raises self st :
  schema self → has_layout (State_fields self) st → I1 self st →
  State.num_nodes st < max_num_nodes self →
  ∃ (padded_obs : Obs.t) st' (state : Obs.t),
    get_state self st = Ok (padded_obs, st') ∧
    unpad_states self padded_obs st' = Ok (state, st') ∧
    unpad_states self state st' = Raise IndexError.
Proof.
  intros Hs HL HI Hlt. pose proof HI as [Hc _].
  pose proof (padded_layout self _ st HL) as HL'.
  destruct (state_views_cover self st Hs HL) as (Vn & _).
  destruct (schema_lengths self st Hs HL) as (Ln & _).
  destruct (padded_bufs self st) as (Bn & _).
  destruct (live_markers_items self st Hs HL HI) as (Mn & _).
  destruct (state_views_readable self (padded self st) Hs HL')
    as (Rn & Re & Rv & Ra).
  rewrite padded_views in Rn, Re, Rv, Ra.
  destruct (unpad_states_spec self (state_views st) (padded self st)
              Rn Re Rv Ra) as (r1 & r2 & r3 & r4 & Hu & F1 & _).
  pose proof Hc as (Hn & _).
  eapply first_sentinel_unique in F1;
    [|apply (scan_padded st _ _ (State.num_nodes st));
      [exact Bn|simpl in *; lia..|exact Mn]].
  rewrite bool_decide_eq_true_2 in F1 by lia. subst r1.
  eexists _, _, _. split; [by apply get_state_spec|]. split; [exact Hu|].
  unfold unpad_states. unfold bind at 1.
  cbn [Obs.nodes cut].
  rewrite (find_sentinel_raises _ 0 (State.num_nodes st)); [done|lia| |].
  - intros k Hk.
    assert (item (padded self st)
              (slice_to (Obs.nodes (state_views st)) (State.num_nodes st)) k 0 =
            item st (Obs.nodes (state_views st)) k 0) as Hitem.
    { rewrite <- (item_pad_below st (padded self st)
                    (Obs.nodes (state_views st)) (State.num_nodes st)
                    (max_num_nodes self) k 0 Bn) by (simpl in *; lia).
      unfold item, offset. cbn [slice_to len width base state_views Obs.nodes].
      rewrite bool_decide_eq_false_2 by lia.
      rewrite !norm_index_nonneg by lia. done. }
    rewrite Hitem.
    destruct (item_exists st (Obs.nodes (state_views st)) k) as [v Hv];
      [simpl; lia..|].
    exists v. split; [done|]. pose proof (Mn k v Hk Hv). lia.
  - unfold item, offset, norm_index.
    cbn [slice_to len width base state_views Obs.nodes].
    rewrite (bool_decide_eq_false_2 (State.num_nodes st < 0)) by lia.
    rewrite (bool_decide_eq_false_2 (0 ≤ State.num_nodes st < _)) by lia.
    by rewrite (bool_decide_eq_false_2 (_ ≤ State.num_nodes st < 0)) by lia.
Qed.

(** X8.  The scan stops at the first [-1] it meets, also inside the live
    part: when [nodes[k] = -1] below the count and no earlier entry is [-1],
    unpadding the padded observation leaves [k] entries of [nodes] and of
    [starter], not [num_nodes]. *)
Theorem unpad_cuts_at_live_sentinel self st (k : nat) :
  schema self → has_layout (State_fields self) st →
  counts_in_capacity self st →
  Z.of_nat k < State.num_nodes st →
  State.nodes st !! k = Some (-1) →
  (∀ j : nat, (j < k)%nat → State.nodes st !! j ≠ Some (-1)) →
  ∃ (padded_obs : Obs.t) st' (state : Obs.t),
    get_state self st = Ok (padded_obs, st') ∧
    unpad_states self padded_obs st' = Ok (state, st') ∧
    len (Obs.nodes state) = k ∧ len (Obs.starter state) = k.
Proof.
  intros Hs HL Hc Hk Hat Hbefore.
  pose proof (padded_layout self _ st HL) as HL'.
  destruct (state_views_cover self st Hs HL) as (Vn & Vs & _).
  destruct (padded_bufs self st) as (Bn & _).
  destruct (state_views_readable self (padded self st) Hs HL')
    as (Rn & Re & Rv & Ra).
  rewrite padded_views in Rn, Re, Rv, Ra.
  destruct (unpad_states_spec self (state_views st) (padded self st)
              Rn Re Rv Ra) as (r1 & r2 & r3 & r4 & Hu & F1 & _).
  pose proof Hc as (Hn & _).
  assert (∀ j, 0 ≤ j < State.num_nodes st →
            item (padded self st) (Obs.nodes (state_views st)) j 0 =
            State.nodes st !! Z.to_nat j) as Hread.
  { intros j Hj.
    rewrite (item_pad_below st (padded self st)
               (Obs.nodes (state_views st)) (State.num_nodes st)
               (max_num_nodes self) j 0 Bn) by (simpl in *; lia).
    rewrite item_marker by (simpl in *; lia). simpl.
    by rewrite Nat.add_0_r. }
  assert (first_sentinel (padded self st) (Obs.nodes (state_views st)) 0
            (max_num_nodes self) (Some (Z.of_nat k))) as Hfirst.
  { split; [lia|]. split.
    - rewrite Hread by lia. by rewrite Nat2Z.id.
    - intros j Hj. rewrite Hread by lia. apply Hbefore. lia. }
  rewrite (first_sentinel_unique _ _ _ _ _ _ F1 Hfirst) in Hu.
  eexists _, _, _. split; [by apply get_state_spec|]. split; [exact Hu|].
  simpl in *. rewrite bool_decide_eq_false_2 by lia. lia.
Qed.

End PaddingMore.

(** ** More on the protocol *)

Section ProtocolMore.

Context {E : Type}.
Implicit Types (self : ASTEnv E) (st : State.t) (lib : CDLL E).

#[local] Arguments Nat.div : simpl never.
#[local] Arguments Nat.modulo : simpl never.

Lemma c_int_periodic x k : c_int (x + k * 2 ^ 32) = c_int x.
Proof.
  unfold c_int. f_equal.
  replace (x + k * 2 ^ 32 + 2 ^ 31) with (x + 2 ^ 31 + k * 2 ^ 32) by lia.
  apply Z.mod_add. lia.
Qed.

Lemma c_int_range x : - 2 ^ 31 ≤ c_int x < 2 ^ 31.
Proof. unfold c_int. pose proof (Z.mod_pos_bound (x + 2 ^ 31) (2 ^ 32)). lia. Qed.

Lemma c_int_id x : - 2 ^ 31 ≤ x < 2 ^ 31 → c_int x = x.
Proof. intros. unfold c_int. rewrite Z.mod_small; lia. Qed.

(** X9.  The action reaches the engine through [ctypes.c_int]: [step]
    cannot tell two actions that differ by a multiple of [2^32] apart, and
    the engine only ever receives a signed 32-bit number, the action itself
    when it is one. *)
Theorem step_action_is_c_int self action k :
  step self (action + k * 2 ^ 32) = step self action ∧
  step self (c_int action) = step self action ∧
  - 2 ^ 31 ≤ c_int action < 2 ^ 31.
Proof.
  split; [|split].
  - unfold step. by rewrite c_int_periodic.
  - unfold step. by rewrite (c_int_id (c_int action)) by apply c_int_range.
  - apply c_int_range.
Qed.

(** X10.  [reset] fails on a configuration that lacks starting codes:
    without assignments to draw from it raises [ValueError] at once; after
    drawing an assignment [a] (probability [1 / num_assignments]) it raises
    [IndexError] when [code_per_assignment] has no entry [a], and
    [ValueError] when that entry is not positive. *)
Theorem reset_without_codes self :
  let num_assignments :=
    n (ObservationSpace.assignment (observation_space self)) in
  (num_assignments ≤ 0 → run (reset self) [] = Some (Raise ValueError)) ∧
  (∀ a, 0 ≤ a < num_assignments →
     (length (code_per_assignment self) ≤ Z.to_nat a)%nat →
     run (reset self) [a] = Some (Raise IndexError) ∧
     (prob (reset self) [a] == 1 # Z.to_pos num_assignments)%Q) ∧
  (∀ a codes, 0 ≤ a < num_assignments →
     code_per_assignment self !! Z.to_nat a = Some codes → codes ≤ 0 →
     run (reset self) [a] = Some (Raise ValueError) ∧
     (prob (reset self) [a] == 1 # Z.to_pos num_assignments)%Q).
Proof.
  intros na. unfold reset, sample, randint. fold na. split; [|split].
  - intros Hna. by rewrite bool_decide_eq_true_2 by lia.
  - intros a Ha Hlen. rewrite bool_decide_eq_false_2 by lia. simpl.
    rewrite bool_decide_eq_true_2 by lia.
    replace (na - 1 - 0 + 1) with na by lia.
    assert (norm_index (length (code_per_assignment self)) a = None) as ->.
    { unfold norm_index. by rewrite !bool_decide_eq_false_2 by lia. }
    split; [done|]. simpl. ring.
  - intros a codes Ha Hc Hcodes. rewrite bool_decide_eq_false_2 by lia. simpl.
    rewrite bool_decide_eq_true_2 by lia.
    replace (na - 1 - 0 + 1) with na by lia.
    rewrite norm_index_nonneg by (apply lookup_lt_Some in Hc; lia).
    rewrite Hc. rewrite bool_decide_eq_true_2 by lia.
    split; [done|]. simpl. ring.
Qed.

(** X11.  What a successful construction guarantees: [State._fields_] had
    not been set before in the process, no array length is negative, the
    layout is the one declared from the capacities, the structure is still
    missing ([state] is [None]), the action space has
    [num_actions + max_num_vars] actions while the action mask has
    [num_actions + 2 * max_num_vars] bits, and the engine has been seeded
    with the 32-bit seed. *)
Theorem init_inversion lib (e : E) (final : bool)
    (N D NA : Z) (cpa : list Z) (A : Z) (dir : string) (pert T TL V seed : Z)
    self :
  __init__ lib e final N D NA cpa A dir pert T TL V seed = Ok self →
  final = false ∧
  (0 ≤ N ∧ 0 ≤ T ∧ 0 ≤ V ∧ 0 ≤ TL ∧ 0 ≤ A + V * 2) ∧
  schema self ∧ state self = None ∧
  (max_num_nodes self = N ∧ max_num_vars self = V ∧ num_actions self = A ∧
   num_node_descriptor self = D ∧ perturbation self = pert ∧
   code_per_assignment self = cpa ∧ assignment_dir self = dir) ∧
  n (action_space self) = A + V ∧
  bits (ObservationSpace.permitted_actions (observation_space self)) =
    A + V * 2 ∧
  n (ObservationSpace.assignment (observation_space self)) = NA ∧
  zast_size (State_fields self) = Z.to_nat TL ∧
  engine self = init_c lib (c_int seed) e.
Proof.
  unfold __init__, c_array, np_ones, new_Discrete, new_MultiDiscrete,
    new_MultiBinary.
  repeat (case_bool_decide; cbn [rbind];
          try done; try (by destruct final)).
  destruct final; [done|]. intros [= <-]. cbn.
  repeat split; simpl; lia.
Qed.

Lemma step_inv self action (o : Obs.t) r d info self' :
  keeps_layout (astclib self) (State_fields self) →
  step self action = Ok (o, r, d, info, self') →
  ∃ st s2 s3 e,
    state self = Some st ∧ self' = with_state self (Some s3) e ∧
    o = state_views s2 ∧ same_frame s2 s3 ∧
    (has_layout (State_fields self) st → has_layout (State_fields self) s2).
Proof.
  intros (Kt & Kc & _). unfold step.
  destruct (state self) as [st|]; [|done].
  pose proof (Kt st (c_int action) (engine self)) as HL1.
  destruct (take_action _ st _ _) as [s1 e1]. simpl in HL1.
  pose proof (Kc s1 e1) as HL2.
  destruct (check_ast _ s1 e1) as [[rw s2] e2]. simpl in HL2.
  destruct (get_state self s2) as [[o3 s3]|] eqn:Hg; [|done].
  intros [= <- _ _ _ <-]. apply get_state_inv in Hg as [-> Hf].
  exists st, s2, s3, e2.
  split; [done|]. split; [done|]. split; [done|]. split; [exact Hf|].
  intros HL. apply HL2, HL1, HL.
Qed.

(** X12.  Within an episode the observations share their arrays: the
    dictionaries returned by two consecutive [step] calls hold the same
    views of the same buffers, so the earlier observation shows what the
    later one shows; only [cursor_position] and [assignment] are copied. *)
Theorem step_observations_share_arrays self a1 a2
    (o1 o2 : Obs.t) r1 r2 (d1 d2 : bool) i1 i2 self1 self2 :
  keeps_layout (astclib self) (State_fields self) →
  match state self with
  | Some st => has_layout (State_fields self) st
  | None => True
  end →
  step self a1 = Ok (o1, r1, d1, i1, self1) →
  step self1 a2 = Ok (o2, r2, d2, i2, self2) →
  Obs.nodes o1 = Obs.nodes o2 ∧ Obs.edges o1 = Obs.edges o2 ∧
  Obs.starter o1 = Obs.starter o2 ∧
  Obs.permitted_actions o1 = Obs.permitted_actions o2 ∧
  Obs.vars_in_scope o1 = Obs.vars_in_scope o2 ∧
  Obs.args_in_scope o1 = Obs.args_in_scope o2.
Proof.
  intros K H0 H1 H2.
  apply step_inv in H1 as (st & s2 & s3 & e & Hst & -> & -> & Hf & HLa);
    [|done].
  rewrite Hst in H0. specialize (HLa H0).
  apply step_inv in H2
    as (st' & t2 & t3 & e' & Hst' & _ & -> & _ & HLb); [|done].
  simpl in Hst'. injection Hst' as <-.
  simpl in HLb. specialize (HLb (same_frame_layout _ _ _ Hf HLa)).
  destruct HLa as [HLa _], HLb as [HLb _].
  pose proof (λ f, eq_trans (HLa f) (eq_sym (HLb f))) as Heq.
  pose proof (Heq Nodes) as Hn. pose proof (Heq Edges) as He.
  pose proof (Heq Starter) as Hs. pose proof (Heq PermittedActions) as Hp.
  pose proof (Heq VarsInScope) as Hv. pose proof (Heq ArgsInScope) as Ha.
  cbn [buf] in Hn, He, Hs, Hp, Hv, Ha.
  unfold state_views. cbn [Obs.nodes Obs.edges Obs.starter
    Obs.permitted_actions Obs.vars_in_scope Obs.args_in_scope].
  by rewrite Hn, He, Hs, Hp, Hv, Ha.
Qed.

End ProtocolMore.

(** ** The driver loop *)

Lemma find_permitted_spec (a : ndarray) c cap st :
  (∀ k, c ≤ k < cap → is_Some (item st a k 0)) →
  ∃ r, find_permitted a (range c cap) st = Ok (r, st) ∧
       match r with
       | Some i =>
           c ≤ i < cap ∧ item st a i 0 = Some 1 ∧
           ∀ k, c ≤ k < i → item st a k 0 ≠ Some 1
       | None => ∀ k, c ≤ k < cap → item st a k 0 ≠ Some 1
       end.
Proof.
  remember (Z.to_nat (cap - c)) as m eqn:Hm.
  revert c Hm. induction m as [|m IH]; intros c Hm Hread.
  - exists None. rewrite range_nil by lia. split; [done|].
    intros k Hk. lia.
  - rewrite range_cons by lia. simpl. unfold bind, getitem.
    destruct (Hread c) as [v Hv]; [lia|]. rewrite Hv.
    case_bool_decide as Hs.
    + exists (Some c). split; [done|]. subst v.
      split; [lia|]. split; [done|]. intros k Hk. lia.
    + destruct (IH (c + 1)) as (r & Hr & Hf); [lia|intros; apply Hread; lia|].
      exists r. split; [done|].
      assert (item st a c 0 ≠ Some 1) as Hc by (rewrite Hv; congruence).
      destruct r as [i|].
      * destruct Hf as (Hi & Hit & Hbefore). split; [lia|]. split; [done|].
        intros k Hk. destruct (decide (k = c)) as [->|]; [done|].
        apply Hbefore. lia.
      * intros k Hk. destruct (decide (k = c)) as [->|]; [done|].
        apply Hf. lia.
Qed.

(** X13.  The driver's choice of action: on an observation whose action
    mask lies within its buffer, the scan returns the least index whose
    mask entry is 1, and [-1] when no entry is 1; it changes nothing. *)
Theorem first_permitted_least (obs : Obs.t) st :
  (0 < width (Obs.permitted_actions obs))%nat →
  (width (Obs.permitted_actions obs) * len (Obs.permitted_actions obs)
   ≤ length (buf st (base (Obs.permitted_actions obs))))%nat →
  ∃ action,
    first_permitted obs st = Ok (action, st) ∧
    ((action = -1 ∧
      ∀ k, 0 ≤ k < Z.of_nat (len (Obs.permitted_actions obs)) →
           item st (Obs.permitted_actions obs) k 0 ≠ Some 1) ∨
     (0 ≤ action < Z.of_nat (len (Obs.permitted_actions obs)) ∧
      item st (Obs.permitted_actions obs) action 0 = Some 1 ∧
      ∀ k, 0 ≤ k < action →
           item st (Obs.permitted_actions obs) k 0 ≠ Some 1)).
Proof.
  intros Hw Hl. unfold first_permitted, bind.
  destruct (find_permitted_spec (Obs.permitted_actions obs) 0
              (Z.of_nat (len (Obs.permitted_actions obs))) st)
    as (r & -> & Hr).
  { intros k Hk. by apply item_exists. }
  destruct r as [i|]; simpl; eexists; (split; [done|]); [right|left]; done.
Qed.

Section DriverLoop.

Context {E : Type}.
Variable print_curr_state : State.t → E → State.t * E.
Implicit Types (self : ASTEnv E) (st : State.t).

#[local] Arguments Nat.div : simpl never.
#[local] Arguments Nat.modulo : simpl never.

Lemma verdict_done count : verdict count = "Done!" ↔ count ≠ 20.
Proof. unfold verdict. case_bool_decide; split; (done || congruence). Qed.

(** The loop, for any fuel that covers the steps left. *)
Lemma play_returns (fuel : nat) self st0 (obs : Obs.t) (done : bool) count :
  schema self → engine_ok self →
  (∀ st e, ready self st → ready self (print_curr_state st e).1) →
  state self = Some st0 → ready self st0 →
  Obs.permitted_actions obs = Obs.permitted_actions (state_views st0) →
  0 ≤ count ≤ 20 → (20 - count ≤ Z.of_nat fuel) →
  ∃ count' (done' : bool) self',
    play print_curr_state fuel self obs done count =
      Some (Ok (count', done', self')) ∧
    count ≤ count' ≤ 20 ∧ (count' < 20 → done' = true) ∧
    (done = true → count' = count) ∧ (done = false → count < 20 → count < count').
Proof.
  revert self st0 obs done count.
  induction fuel as [|fuel IH];
    intros self st0 obs done count Hs Heng Hprint Hst Hr Hobs Hcount Hfuel.
  - simpl. destruct done; simpl.
    + eexists _, _, _. split; [done|]. repeat split; (done || lia).
    + rewrite bool_decide_eq_false_2 by lia.
      eexists _, _, _. split; [done|]. repeat split; (done || lia).
  - cbn [play]. destruct done; cbn [negb andb].
    { eexists _, _, _. split; [done|]. repeat split; (done || lia). }
    case_bool_decide as Hlt; cycle 1.
    { eexists _, _, _. split; [done|]. repeat split; (done || lia). }
    rewrite Hst.
    destruct (first_permitted_least obs st0)
      as (action & -> & _); [rewrite Hobs; simpl; lia..|].
    pose proof Heng as (Ht & Hc & Hi).
    unfold step. rewrite Hst.
    pose proof (Ht st0 (c_int action) (engine self) Hr) as R1.
    destruct (take_action _ st0 _ _) as [s1 e1]. simpl in R1.
    pose proof (Hc s1 e1 R1) as R2.
    destruct (check_ast _ s1 e1) as [[reward s2] e2]. simpl in R2.
    destruct R2 as [L2 C2].
    rewrite get_state_spec by done.
    unfold render. cbn [with_state state engine].
    pose proof (Hprint (padded self s2) e2
                  (conj (padded_layout self _ s2 L2) (padded_counts self s2 C2)))
      as R3.
    destruct (print_curr_state (padded self s2) e2) as [s3 e3]. simpl in R3.
    destruct (IH (with_state (with_state self (Some (padded self s2)) e2)
                    (Some s3) e3) s3 (state_views s2)
                (bool_decide (reward = 1)) (count + 1))
      as (count' & done' & self' & Hplay & Hrange & Hdone & _).
    + exact Hs.
    + exact Heng.
    + exact Hprint.
    + done.
    + exact R3.
    + destruct R3 as [[L3 _] _]. destruct L2 as [L2 _].
      pose proof (eq_trans (L2 PermittedActions) (eq_sym (L3 PermittedActions)))
        as Hp.
      cbn [buf] in Hp. unfold state_views. cbn [Obs.permitted_actions].
      by rewrite Hp.
    + lia.
    + lia.
    + exists count', done', self'. split; [exact Hplay|].
      repeat split; (done || lia).
Qed.

(** X14.  The driver loop returns after at most 20 steps; it stops before
    the twentieth only when an episode is done, and the message is decided
    by the count alone: it is [Done!] exactly when fewer than 20 steps were
    made, so an episode that is done at the twentieth step is reported as
    [Too many steps]. *)
Theorem play_at_most_20 self st0 (obs : Obs.t) :
  schema self → engine_ok self →
  (∀ st e, ready self st → ready self (print_curr_state st e).1) →
  state self = Some st0 → ready self st0 →
  Obs.permitted_actions obs = Obs.permitted_actions (state_views st0) →
  ∃ count (done : bool) self',
    play print_curr_state 20 self obs false 0 = Some (Ok (count, done, self')) ∧
    0 < count ≤ 20 ∧ (count < 20 → done = true) ∧
    (verdict count = "Done!" ↔ count < 20).
Proof.
  intros Hs Heng Hprint Hst Hr Hobs.
  destruct (play_returns 20 self st0 obs false 0 Hs Heng Hprint Hst Hr Hobs)
    as (count & done & self' & Hplay & Hrange & Hdone & _ & Hstep);
    [lia|simpl; lia|].
  exists count, done, self'. split; [exact Hplay|].
  specialize (Hstep eq_refl). split; [lia|]. split; [done|].
  rewrite verdict_done. lia.
Qed.

End DriverLoop.

(** *** The further results on the demonstration data *)

Lemma get_state_overflow_unpadded_witness :
  get_state demo_env (set_counts demo_state 7 9 2 5) =
  Ok (state_views demo_state, set_counts demo_state 7 9 2 5).
Proof.
  apply (get_state_overflow_unpadded demo_env (set_counts demo_state 7 9 2 5)).
  - exact demo_schema.
  - split; [by intros []|done].
  - simpl. lia.
  - simpl. lia.
  - simpl. lia.
  - simpl. lia.
Defined.

Lemma get_state_count_below_raises_witness :
  get_state demo_env (set_counts demo_state (-4) 1 1 1) = Raise IndexError.
Proof.
  apply (get_state_count_below_raises demo_env
           (set_counts demo_state (-4) 1 1 1)).
  - exact demo_schema.
  - split; [by intros []|done].
  - simpl. lia.
  - simpl. lia.
Defined.

Lemma get_state_negative_count_wraps_witness :
  ∃ st',
    get_state demo_env (set_counts demo_state (-1) 1 1 1) =
      Ok (state_views demo_state, st') ∧
    State.nodes st' = [-1; -1; -1] ∧ State.starter st' = [-1; -1; -1].
Proof.
  apply (get_state_negative_count_wraps demo_env
           (set_counts demo_state (-1) 1 1 1)).
  - exact demo_schema.
  - split; [by intros []|done].
  - simpl. lia.
  - simpl. lia.
  - simpl. lia.
  - simpl. lia.
Defined.

Lemma get_state_keeps_other_columns_witness :
  ∃ (state : Obs.t) st',
    get_state demo_env demo_state = Ok (state, st') ∧
    item st' (Obs.edges state) 4 1 = item demo_state (Obs.edges state) 4 1.
Proof.
  destruct (get_state_keeps_other_columns demo_env demo_state
              demo_schema demo_layout demo_counts)
    as (state & st' & Hg & Hcols).
  exists state, st'. split; [exact Hg|]. exact (proj1 (Hcols 4)).
Defined.

Lemma demo_get_state :
  get_state demo_env demo_state =
  Ok (state_views demo_state, padded demo_env demo_state).
Proof. by vm_compute. Qed.

Lemma get_state_frame_any_counts_witness :
  same_frame demo_state (padded demo_env demo_state).
Proof.
  exact (proj2 (get_state_frame_any_counts demo_env _ _ _ demo_get_state)).
Defined.

Lemma demo_unpad :
  unpad_states demo_env (state_views demo_state)
    (padded demo_env demo_state) =
  Ok (Obs.mk {| base := Nodes; len := 2; width := 1 |}
        {| base := Edges; len := 1; width := 3 |}
        {| base := Starter; len := 2; width := 1 |}
        {| base := PermittedActions; len := 8; width := 1 |} 0
        {| base := VarsInScope; len := 1; width := 1 |}
        {| base := ArgsInScope; len := 1; width := 2 |} 0,
      padded demo_env demo_state).
Proof. by vm_compute. Qed.

Lemma unpad_states_reads_only_witness :
  shorter {| base := Edges; len := 1; width := 3 |}
    (Obs.edges (state_views demo_state)).
Proof.
  exact (proj1 (proj2 (proj2 (proj2 (proj2
           (unpad_states_reads_only demo_env _ _ _ _ demo_unpad)))))).
Defined.

Lemma unpad_states_twice_raises_witness :
  ∃ (padded_obs : Obs.t) st' (state : Obs.t),
    get_state demo_env demo_state = Ok (padded_obs, st') ∧
    unpad_states demo_env padded_obs st' = Ok (state, st') ∧
    unpad_states demo_env state st' = Raise IndexError.
Proof.
  apply (unpad_states_twice_raises demo_env demo_state
           demo_schema demo_layout demo_I1).
  simpl. lia.
Defined.

Lemma unpad_cuts_at_live_sentinel_witness :
  ∃ (padded_obs : Obs.t) st' (state : Obs.t),
    get_state demo_env (set_buf demo_state Nodes [5; -1; 7]) =
      Ok (padded_obs, st') ∧
    unpad_states demo_env padded_obs st' = Ok (state, st') ∧
    len (Obs.nodes state) = 1%nat ∧ len (Obs.starter state) = 1%nat.
Proof.
  apply (unpad_cuts_at_live_sentinel demo_env
           (set_buf demo_state Nodes [5; -1; 7]) 1).
  - exact demo_schema.
  - split; [by intros []|done].
  - exact demo_counts.
  - simpl. lia.
  - reflexivity.
  - intros j Hj. assert (j = 0%nat) as -> by lia. discriminate.
Defined.

Lemma reset_without_codes_witness :
  run (reset (with_codes demo_env 0 [])) [] = Some (Raise ValueError) ∧
  run (reset (with_codes demo_env 2 [1])) [1] = Some (Raise IndexError) ∧
  run (reset (with_codes demo_env 2 [1; 0])) [1] = Some (Raise ValueError).
Proof.
  split; [|split].
  - apply (proj1 (reset_without_codes (with_codes demo_env 0 []))).
    simpl. lia.
  - apply (proj1 (proj2 (reset_without_codes (with_codes demo_env 2 [1]))) 1).
    + simpl. lia.
    + simpl. lia.
  - apply (proj2 (proj2 (reset_without_codes (with_codes demo_env 2 [1; 0])))
             1 0).
    + simpl. lia.
    + reflexivity.
    + lia.
Defined.

Lemma init_inversion_witness :
  schema demo_env ∧ n (action_space demo_env) = 4 + 2.
Proof.
  destruct (init_inversion demo_lib tt false 3 10 1 [1] 4 "d" 0 2 8 2 0
              demo_env demo_env_constructed)
    as (_ & _ & Hs & _ & _ & Hn & _).
  split; [exact Hs|exact Hn].
Defined.

Lemma demo_step_0 :
  step demo_ready 0 =
  Ok (state_views (demo_move demo_state 0), 0, false, [],
      with_state demo_ready
        (Some (padded demo_env (demo_move demo_state 0))) tt).
Proof. by vm_compute. Qed.

Lemma demo_step_1 :
  step (with_state demo_ready
          (Some (padded demo_env (demo_move demo_state 0))) tt) 1 =
  Ok (state_views (demo_move demo_state 1), 1, true, [],
      with_state demo_ready
        (Some (padded demo_env (demo_move demo_state 1))) tt).
Proof. by vm_compute. Qed.

Lemma step_observations_share_arrays_witness :
  Obs.nodes (state_views (demo_move demo_state 0)) =
    Obs.nodes (state_views (demo_move demo_state 1)) ∧
  Obs.cursor_position (state_views (demo_move demo_state 0)) = 0 ∧
  Obs.cursor_position (state_views (demo_move demo_state 1)) = 1.
Proof.
  split; [|by split].
  exact (proj1 (step_observations_share_arrays demo_ready 0 1 _ _ _ _ _ _ _ _
                  _ _ demo_keeps_layout demo_layout demo_step_0 demo_step_1)).
Defined.

Lemma first_permitted_least_witness :
  ∃ action,
    first_permitted (state_views demo_state) demo_state =
      Ok (action, demo_state).
Proof.
  destruct (first_permitted_least (state_views demo_state) demo_state)
    as (action & Hf & _); [simpl; lia..|].
  by exists action.
Defined.

Lemma slow_engine_ok : engine_ok slow_ready.
Proof.
  split; [|split].
  - intros st a e [[HL HZ] Hc]. split; [by split|done].
  - intros st e Hr. exact Hr.
  - intros st d a c p e [[HL HZ] Hc]. split; [by split|].
    unfold counts_in_capacity. simpl. lia.
Qed.

Lemma slow_play :
  ∃ self',
    play (λ st e, (st, e)) 20 slow_ready (state_views demo_state) false 0 =
    Some (Ok (20, true, self')).
Proof. eexists. by vm_compute. Qed.

Lemma play_at_most_20_witness :
  ∃ count (done : bool) self',
    play (λ st e, (st, e)) 20 slow_ready (state_views demo_state) false 0 =
      Some (Ok (count, done, self')) ∧
    count = 20 ∧ done = true ∧ verdict count = "Too many steps".
Proof.
  destruct (play_at_most_20 (λ st e, (st, e)) slow_ready demo_state
              (state_views demo_state))
    as (count & done & self' & Hplay & _).
  - exact demo_schema.
  - exact slow_engine_ok.
  - intros st e Hr. exact Hr.
  - reflexivity.
  - split; [exact demo_layout|exact demo_counts].
  - reflexivity.
  - destruct slow_play as (self2 & Hslow).
    exists count, done, self'. split; [exact Hplay|].
    rewrite Hslow in Hplay. injection Hplay as <- <- _. by repeat split.
Defined.

(** ** The policy's input dictionary *)

Lemma extends_by_refl d : extends_by 0 d d.
Proof. repeat split; exists []; by rewrite app_nil_r. Qed.

Lemma extends_by_trans j k d1 d2 d3 :
  extends_by j d1 d2 → extends_by k d2 d3 → extends_by (j + k) d1 d3.
Proof.
  intros (A1 & A2 & A3 & A4 & A5 & A6 & A7 & A8)
         (B1 & B2 & B3 & B4 & B5 & B6 & B7 & B8).
  repeat split;
    [destruct A1 as (l & Ha & Hl), B1 as (l' & Hb & Hl')
    |destruct A2 as (l & Ha & Hl), B2 as (l' & Hb & Hl')
    |destruct A3 as (l & Ha & Hl), B3 as (l' & Hb & Hl')
    |destruct A4 as (l & Ha & Hl), B4 as (l' & Hb & Hl')
    |destruct A5 as (l & Ha & Hl), B5 as (l' & Hb & Hl')
    |destruct A6 as (l & Ha & Hl), B6 as (l' & Hb & Hl')
    |destruct A7 as (l & Ha & Hl), B7 as (l' & Hb & Hl')
    |destruct A8 as (l & Ha & Hl), B8 as (l' & Hb & Hl')];
    exists (l ++ l')%list; rewrite Hb, Ha, <- app_assoc, length_app;
    (split; [done|lia]).
Qed.

Lemma append_datum_extends d datum mem :
  extends_by 1 d (append_datum d datum mem).
Proof. repeat split; by eexists [_]. Qed.

Section PolicyInput.

Context {E Row : Type}.
Variable unflatten : ObservationSpace.t → Row → Obs.t * State.t.

Lemma unflatten_rows_extends (env : ASTEnv E) (input : list Row) d d' :
  unflatten_rows unflatten env input d = Ok d' →
  extends_by (length input) d d'.
Proof.
  revert d. induction input as [|row input IH]; intros d; simpl.
  - intros [= <-]. apply extends_by_refl.
  - destruct (unflatten _ row) as [datum mem].
    destruct (unpad_states env datum mem) as [[datum' mem']|]; [|done].
    intros Hrest. apply IH in Hrest.
    apply (extends_by_trans 1 _ _ _ _ (append_datum_extends d datum' mem')
             Hrest).
Qed.

(** X15.  [unflatten_input] appends to the policy's own [empty_obs_dict]:
    a call returns the lists the policy already held, continued by one
    entry per row, and leaves the policy holding them; so the result of a
    second call starts with the whole result of the first. *)
Theorem unflatten_input_accumulates (self self1 self2 : GNNPolicy E)
    (rows1 rows2 : list Row) (d1 d2 : Batch.t) :
  unflatten_input unflatten self rows1 = Ok (d1, self1) →
  unflatten_input unflatten self1 rows2 = Ok (d2, self2) →
  empty_obs_dict self1 = d1 ∧
  extends_by (length rows1) (empty_obs_dict self) d1 ∧
  extends_by (length rows2) d1 d2.
Proof.
  unfold unflatten_input.
  destruct (unflatten_rows _ _ rows1 _) as [b1|] eqn:H1; [|done].
  intros [= <- <-]. cbn [env empty_obs_dict].
  destruct (unflatten_rows _ _ rows2 _) as [b2|] eqn:H2; [|done].
  intros [= <- _].
  split; [done|]. split; by eapply unflatten_rows_extends.
Qed.

End PolicyInput.

Lemma demo_unflatten_twice :
  ∃ d1 self1 d2 self2,
    unflatten_input demo_unflatten
      {| env := demo_env; empty_obs_dict := new_obs_dict |}
      [(state_views demo_state, padded demo_env demo_state)] = Ok (d1, self1) ∧
    unflatten_input demo_unflatten self1
      [(state_views demo_state, padded demo_env demo_state)] = Ok (d2, self2) ∧
    Batch.nodes d1 = [[5; 6]] ∧ Batch.nodes d2 = [[5; 6]; [5; 6]].
Proof.
  eexists _, _, _, _.
  split; [by vm_compute|]. split; [by vm_compute|]. by vm_compute.
Qed.

Lemma unflatten_input_accumulates_witness :
  ∃ d1 d2,
    Batch.nodes d1 = [[5; 6]] ∧ Batch.nodes d2 = [[5; 6]; [5; 6]] ∧
    extends_by 1 new_obs_dict d1 ∧ extends_by 1 d1 d2.
Proof.
  destruct demo_unflatten_twice as (d1 & self1 & d2 & self2 & H1 & H2 & N1 & N2).
  exists d1, d2. split; [exact N1|]. split; [exact N2|].
  exact (proj2 (unflatten_input_accumulates demo_unflatten _ _ _ _ _ _ _
                  H1 H2)).
Defined.
